(** * namescan: the command-line driver [namescan/cli.py]

    A shallow embedding of [main] (cli.py, lines 24-93) and of the Python
    built-ins it relies on, followed by the properties of the driver:
    argument validation, username deduplication, the token prefetch barrier,
    the fan-out over (username, platform) pairs, the per-task exception
    boundary, the presentation sort and the trailing summary.

    Strings are ASCII text ([string] of the standard library); [str.upper],
    [str.lower] and [str.capitalize] act on the letters a-z / A-Z as Python
    does on ASCII input, and [<] on strings is Python's lexicographic
    comparison of code points. *)

From Stdlib Require Import Ascii String.
From stdpp Require Import base list strings gmap fin_maps sorting.

Local Open Scope string_scope.
Local Open Scope list_scope.

(** ** Python string built-ins *)

Module Py.

Definition is_lower (c : ascii) : bool :=
  (97 <=? nat_of_ascii c)%nat && (nat_of_ascii c <=? 122)%nat.

Definition is_upper (c : ascii) : bool :=
  (65 <=? nat_of_ascii c)%nat && (nat_of_ascii c <=? 90)%nat.

Definition ascii_upper (c : ascii) : ascii :=
  if is_lower c then ascii_of_nat (nat_of_ascii c - 32) else c.

Definition ascii_lower (c : ascii) : ascii :=
  if is_upper c then ascii_of_nat (nat_of_ascii c + 32) else c.

Fixpoint str_map (f : ascii -> ascii) (s : string) : string :=
  match s with
  | EmptyString => EmptyString
  | String c s' => String (f c) (str_map f s')
  end.

(** A [string] holds the UTF-8 encoding of a Python [str]: each code point
    is one leading byte followed by its continuation bytes, the bytes
    10xxxxxx. [len(s)] counts code points, so it counts the bytes that are
    not continuation bytes. *)
Definition is_continuation (c : ascii) : bool :=
  (128 <=? nat_of_ascii c)%nat && (nat_of_ascii c <? 192)%nat.

Fixpoint len (s : string) : nat :=
  match s with
  | EmptyString => 0
  | String c s' => (if is_continuation c then 0 else 1) + len s'
  end.

(** [s.isascii()]: every code point is below 128. The case mappings below
    change the letters a-z and A-Z only: on ASCII strings they are Python's
    [upper], [lower] and [capitalize]; on other strings Python maps
    further letters, which they leave alone, so that properties of the
    case mappings are stated for ASCII strings. *)
Fixpoint isascii (s : string) : bool :=
  match s with
  | EmptyString => true
  | String c s' => (nat_of_ascii c <? 128)%nat && isascii s'
  end.

(** [s.upper()] and [s.lower()] *)
Definition upper (s : string) : string := str_map ascii_upper s.
Definition lower (s : string) : string := str_map ascii_lower s.

(** [s.capitalize()]: first character upper-cased, the rest lower-cased *)
Definition capitalize (s : string) : string :=
  match s with
  | EmptyString => EmptyString
  | String c s' => String (ascii_upper c) (lower s')
  end.

(** [s1 < s2] on [str]: lexicographic on code points, a proper prefix is
    smaller. *)
Fixpoint str_ltb (s1 s2 : string) : bool :=
  match s1, s2 with
  | EmptyString, EmptyString => false
  | EmptyString, String _ _ => true
  | String _ _, EmptyString => false
  | String a s1', String b s2' =>
      if (nat_of_ascii a <? nat_of_ascii b)%nat then true
      else if (nat_of_ascii b <? nat_of_ascii a)%nat then false
      else str_ltb s1' s2'
  end.

(** [a < b] on [bool] ([False < True]) *)
Definition bool_ltb (a b : bool) : bool := negb a && b.

(** [t1 < t2] on pairs: the first position where the components differ
    decides. *)
Definition pair_ltb (t1 t2 : bool * bool) : bool :=
  if Bool.eqb (fst t1) (fst t2) then bool_ltb (snd t1) (snd t2)
  else bool_ltb (fst t1) (fst t2).

(** [s.strip("\n")]: leading and trailing newline characters removed *)
Definition newline : ascii := ascii_of_nat 10.

Fixpoint lstrip_newline (s : string) : string :=
  match s with
  | String c s' => if Ascii.eqb c newline then lstrip_newline s' else s
  | EmptyString => EmptyString
  end.

Fixpoint rstrip_newline (s : string) : string :=
  match s with
  | EmptyString => EmptyString
  | String c s' =>
      match rstrip_newline s' with
      | EmptyString => if Ascii.eqb c newline then EmptyString else String c EmptyString
      | r => String c r
      end
  end.

Definition strip_newline (s : string) : string :=
  rstrip_newline (lstrip_newline s).

(** [list(dict.fromkeys(l))]: keys are inserted left to right; a key that is
    already present keeps its position. *)
Definition fromkeys_step (keys : list string) (k : string) : list string :=
  if bool_decide (k ∈ keys) then keys else keys ++ [k].

Definition dict_fromkeys (l : list string) : list string :=
  fold_left fromkeys_step l [].

(** [list.sort(key=..., reverse=...)]: a stable sort that only uses [<] on
    the keys.  With [reverse=True] the list is reversed, sorted, and reversed
    again, which keeps equal elements in their original order. *)
Section Sort.
Context {A K : Type} (ltb : K -> K -> bool) (key : A -> K).

Fixpoint insert_stable (x : A) (l : list A) : list A :=
  match l with
  | [] => [x]
  | y :: l' =>
      if ltb (key y) (key x) then y :: insert_stable x l' else x :: y :: l'
  end.

Fixpoint sort_ascending (l : list A) : list A :=
  match l with
  | [] => []
  | x :: l' => insert_stable x (sort_ascending l')
  end.

Definition list_sort (reverse : bool) (l : list A) : list A :=
  if reverse then rev (sort_ascending (rev l)) else sort_ascending l.
End Sort.

End Py.

(** ** Data model *)

(** A member of the [Platforms] enumeration; the driver only reads its
    [name]. *)
Record Platform := { name : string }.

(** The response object returned by [util.is_username_available]; the driver
    reads [username], [platform], [valid], [success] and [message]. *)
Record QueryResult := {
  username : string;
  platform : Platform;
  valid : bool;
  success : bool;
  message : string
}.

(** The parsed command line ([argparse.Namespace]). [restrict] and
    [input_file] are [None] when the option is absent. *)
Record Namespace := {
  usernames : list string;
  restrict : option (list string);
  input_file : option string;
  cache_tokens : bool;
  available_only : bool
}.

(** Exceptions, classified by the classes the driver distinguishes:
    [isinstance(e, aiohttp.ClientError)], [isinstance(e, KeyError)], the
    driver's own [ValueError] and [AttributeError], [OSError] from [open],
    and everything else. [exn_name] is [type(e).__name__], [exn_text] is
    [str(e)]. *)
Inductive exn_class :=
  ClientError | KeyError | ValueError | AttributeError | OSError | OtherError.

Record exn := { exn_cls : exn_class; exn_name : string; exn_text : string }.

(** How an awaited coroutine settles. *)
Inductive settled (A : Type) :=
  | Returned (a : A)
  | Raised (e : exn).
Arguments Returned {A} a.
Arguments Raised {A} e.

(** ** Observable behaviour

    A run of [main] is observed as the sequence of its effects, in program
    order, together with the way it ends. The progress bar of [tqdm] and the
    elapsed time of the summary line carry no data of the run and are left
    out. *)

Inductive colour := WHITE | RED | GREEN | YELLOW.

Inductive printed :=
  | CachingTokens                       (* line 60 *)
  | ClearLine                           (* line 62 *)
  | Divider                             (* lines 76, 78: DIVIDER * DIVIDER_LENGTH *)
  | Header (indent : nat) (u : string)  (* line 77 *)
  | Entry (name_col message_col : colour) (response : QueryResult)
                                        (* lines 90-91 *)
  | Summary (queries : nat).            (* line 93 *)

Inductive event :=
  | SessionOpened                       (* line 58, entering [async with] *)
  | SessionClosed                       (* line 58, leaving it *)
  | PrerequestStarted (i : nat) (p : Platform)
  | PrerequestSettled (i : nat) (p : Platform) (o : settled unit)
  | QueryStarted (i : nat) (p : Platform) (u : string)
  | QuerySettled (i : nat) (p : Platform) (u : string) (o : settled QueryResult)
  | Stdout (what : printed)
  | Stderr (lines : list string).       (* line 92 *)

(** The text of the two [print] calls of lines 90-91 for one response. *)
Definition entry_text (r : QueryResult) : string * string :=
  (Py.capitalize (name (platform r)),
   if negb (valid r) then ": " +:+ message r else "").

(** Effects and exceptions: a computation yields the events it performed
    and either the exception that ended it or its value. *)
Definition M (A : Type) : Type := list event * (exn + A).

Definition ret {A} (a : A) : M A := ([], inr a).
Definition raise {A} (e : exn) : M A := ([], inl e).
Definition emit (ev : event) : M unit := ([ev], inr tt).
Definition emit_all (evs : list event) : M unit := (evs, inr tt).

Definition bind {A B} (m : M A) (k : A -> M B) : M B :=
  match m with
  | (tr, inl e) => (tr, inl e)
  | (tr, inr a) => let '(tr', r) := k a in (tr ++ tr', r)
  end.

Notation "x <- m ;; k" := (bind m (fun x => k))
  (at level 100, m at next level, right associativity).
Notation "m ;;; k" := (bind m (fun _ => k))
  (at level 100, right associativity).

(** [for x in l: body], threading the loop state. *)
Fixpoint for_each {X S} (l : list X) (body : S -> X -> M S) (s : S) : M S :=
  match l with
  | [] => ret s
  | x :: l' => s' <- body s x ;; for_each l' body s'
  end.

(** [async with aiohttp.ClientSession() as session: body]: the session is
    closed on the way out, also when [body] raises. *)
Definition with_session {A} (body : M A) : M A :=
  let '(tr, r) := body in (SessionOpened :: tr ++ [SessionClosed], r).

(** ** Constants of cli.py *)

Definition DIVIDER_LENGTH : nat := 40.

Definition Back_RED : string := String (ascii_of_nat 27) "[41m".

Definition value_error (text : string) : exn :=
  {| exn_cls := ValueError; exn_name := "ValueError"; exn_text := text |}.

Definition attribute_error (attr : string) : exn :=
  {| exn_cls := AttributeError; exn_name := "AttributeError";
     exn_text := "'Namespace' object has no attribute '" +:+ attr +:+ "'" |}.

Definition type_error (text : string) : exn :=
  {| exn_cls := OtherError; exn_name := "TypeError"; exn_text := text |}.

(** Attribute access on the parsed arguments. [argparse] stores each option
    under its destination name: [usernames], [restrict], [input_file],
    [cache_tokens], [available_only]; any other attribute raises
    [AttributeError]. *)
Inductive attr_value :=
  | StrList (l : list string)
  | OptStrList (o : option (list string))
  | OptStr (o : option string)
  | Flag (b : bool).

Definition getattr (args : Namespace) (attr : string) : settled attr_value :=
  if String.eqb attr "usernames" then Returned (StrList (usernames args))
  else if String.eqb attr "restrict" then Returned (OptStrList (restrict args))
  else if String.eqb attr "input_file" then Returned (OptStr (input_file args))
  else if String.eqb attr "cache_tokens" then Returned (Flag (cache_tokens args))
  else if String.eqb attr "available_only" then Returned (Flag (available_only args))
  else Raised (attribute_error attr).

(** Truth value of an optional string ([None] and [""] are false) and of an
    optional list ([None] and [[]] are false). *)
Definition truthy_str (o : option string) : bool :=
  match o with Some (String _ _) => true | _ => false end.

Definition truthy_list {A} (o : option (list A)) : bool :=
  match o with Some (_ :: _) => true | _ => false end.

(** The [except (aiohttp.ClientError, KeyError)] clause of line 72. *)
Definition caught (e : exn) : bool :=
  match exn_cls e with
  | ClientError | KeyError => true
  | _ => false
  end.

(** Line 73: [colorama.Back.RED + f"{type(e).__name__}: {e}"] *)
Definition format_exception (e : exn) : string :=
  Back_RED +:+ exn_name e +:+ ": " +:+ exn_text e.

(** [asyncio.as_completed] and [asyncio.gather] hand results over in the
    order in which the coroutines finish, which the event loop decides. The
    [k]-th coroutine to finish is the one at position [pick k] (modulo the
    number still pending) among those still pending. *)
Fixpoint completion_order {X} (pick : nat -> nat) (k : nat) (fuel : nat)
    (pending : list X) : list X :=
  match fuel with
  | 0 => []
  | S fuel' =>
      let i := pick k `mod` length pending in
      match pending !! i with
      | Some x => x :: completion_order pick (S k) fuel' (delete i pending)
      | None => []
      end
  end.

Definition as_completed {X} (pick : nat -> nat) (aws : list X) : list X :=
  completion_order pick 0 (length aws) aws.

(** [enumerate]-style numbering of the coroutines of a comprehension. *)
Definition numbered {X} (l : list X) : list (nat * X) := zip (seq 0 (length l)) l.

(** ** The driver *)

Section Driver.

(** What [main] gets from outside cli.py: the [Platforms] enumeration (its
    members in definition order), the file system, the two coroutines of
    [namescan.util] (each call settles in a way only the network decides,
    so the outcome is a function of the position of the call as well), and
    the order in which the event loop lets coroutines finish. *)
Variable Platforms : list Platform.
Variable read_lines : string -> settled (list string).
Variable prerequest : nat -> Platform -> settled unit.
Variable is_username_available : nat -> Platform -> string -> settled QueryResult.
Variable prerequest_pick : nat -> nat.
Variable query_pick : nat -> nat.

(** Lines 40-44. [usernames] and [args.usernames] are the same list
    object, so the lines appended from the file are seen through both. *)
Definition read_usernames (args : Namespace) : M (list string) :=
  let usernames := usernames args in
  if truthy_str (input_file args) then
    match getattr args "input" with
    | Raised e => raise e
    | Returned (OptStr (Some path)) =>
        match read_lines path with
        | Raised e => raise e
        | Returned lines => ret (usernames ++ map Py.strip_newline lines)
        end
    | Returned _ => raise (type_error "expected str, bytes or os.PathLike object")
    end
  else ret usernames.

(** [Platforms.__members__] and [Platforms[key]]: lookup by member name *)
Definition members_lookup (key : string) : option Platform :=
  List.find (fun q => String.eqb (name q) key) Platforms.

(** Lines 47-55 *)
Definition select_body (platforms : list Platform) (p : string) : M (list Platform) :=
  match members_lookup (Py.upper p) with
  | Some q => ret (platforms ++ [q])
  | None => raise (value_error (p +:+ " is not a valid platform"))
  end.

Definition select_platforms (args : Namespace) : M (list Platform) :=
  if truthy_list (restrict args) then
    for_each (default [] (restrict args)) select_body []
  else ret Platforms.

(** Line 61: [await asyncio.gather] over [util.prerequest(platform,
    session)] for each platform. All coroutines are started; the first
    exception to occur is raised at once by the [await]. *)
Definition gather_body (_ : unit) (c : nat * Platform) : M unit :=
  let o := prerequest (fst c) (snd c) in
  emit (PrerequestSettled (fst c) (snd c) o) ;;;
  match o with
  | Returned _ => ret tt
  | Raised e => raise e
  end.

Definition gather_prerequests (platforms : list Platform) : M unit :=
  let coros := numbered platforms in
  emit_all (map (fun c => PrerequestStarted (fst c) (snd c)) coros) ;;;
  for_each (as_completed prerequest_pick coros) gather_body tt.

(** Line 63: one coroutine per username and platform, usernames outermost *)
Definition platform_queries (platforms : list Platform) (usernames : list string)
    : list (nat * (Platform * string)) :=
  numbered (flat_map (fun username => map (fun i => (i, username)) platforms) usernames).

(** Lines 64-73: [results] is a [defaultdict(list)] keyed by the username
    the response carries, [exceptions] a list of formatted messages. *)
Definition collect_body (available_only : bool)
    (st : gmap string (list QueryResult) * list string)
    (q : nat * (Platform * string))
    : M (gmap string (list QueryResult) * list string) :=
  let '(results, exceptions) := st in
  let o := is_username_available (fst q) (fst (snd q)) (snd (snd q)) in
  emit (QuerySettled (fst q) (fst (snd q)) (snd (snd q)) o) ;;;
  match o with
  | Returned response =>
      if available_only && valid response || negb available_only then
        ret (<[username response :=
                 default [] (results !! username response) ++ [response]]> results,
             exceptions)
      else ret (results, exceptions)
  | Raised e =>
      if caught e then ret (results, exceptions ++ [format_exception e])
      else raise e
  end.

Definition collect (available_only : bool)
    (queries : list (nat * (Platform * string)))
    : M (gmap string (list QueryResult) * list string) :=
  emit_all (map (fun q => QueryStarted (fst q) (fst (snd q)) (snd (snd q))) queries) ;;;
  for_each (as_completed query_pick queries) (collect_body available_only) (∅, []).

(** Lines 79-80 *)
Definition sort_responses (responses : list QueryResult) : list QueryResult :=
  Py.list_sort Py.pair_ltb (fun r => (valid r, success r)) true
    (Py.list_sort Py.str_ltb (fun r => name (platform r)) false responses).

(** Lines 82-91 *)
Definition print_response (response : QueryResult) : printed :=
  if negb (success response) then Entry WHITE RED response
  else if valid response then Entry GREEN GREEN response
  else Entry WHITE YELLOW response.

(** Lines 75-91, one iteration of the loop over [usernames] *)
Definition report_user (results : gmap string (list QueryResult))
    (username : string) : list event :=
  let responses := default [] (results !! username) in
  [Stdout Divider;
   Stdout (Header (DIVIDER_LENGTH / 2 - Py.len username / 2) username);
   Stdout Divider]
  ++ map (fun response => Stdout (print_response response)) (sort_responses responses).

(** Lines 58-91: the body of the [async with] block. It hands on what
    lines 92-93 still use. *)
Definition session_body (args : Namespace) (platforms : list Platform)
    (usernames : list string) : M (list string * nat) :=
  (if cache_tokens args then
     emit (Stdout CachingTokens) ;;;
     gather_prerequests platforms ;;;
     emit (Stdout ClearLine)
   else ret tt) ;;;
  let queries := platform_queries platforms usernames in
  st <- collect (available_only args) queries ;;
  emit_all (flat_map (report_user (fst st)) usernames) ;;;
  ret (snd st, length queries).

(** Lines 40-93 *)
Definition main (args : Namespace) : M unit :=
  usernames <- read_usernames args ;;
  (if bool_decide (usernames = [])
   then raise (value_error "you must specify either a username or an input file")
   else ret tt) ;;;
  platforms <- select_platforms args ;;
  let usernames := Py.dict_fromkeys usernames in
  out <- with_session (session_body args platforms usernames) ;;
  emit (Stderr (fst out)) ;;;
  emit (Stdout (Summary (snd out))).

End Driver.

(** ** A sample world for running the model *)

Module Sample.

Definition SNAPCHAT := {| name := "SNAPCHAT" |}.
Definition GITHUB := {| name := "GITHUB" |}.
Definition INSTAGRAM := {| name := "INSTAGRAM" |}.
Definition TUMBLR := {| name := "TUMBLR" |}.

Definition Platforms : list Platform := [SNAPCHAT; GITHUB; INSTAGRAM; TUMBLR].

Definition no_files (path : string) : settled (list string) :=
  Raised {| exn_cls := OSError; exn_name := "FileNotFoundError"; exn_text := path |}.

Definition one_file (path : string) : settled (list string) :=
  if String.eqb path "names.txt" then Returned ["bob" +:+ String Py.newline ""]
  else no_files path.

Definition prerequest_ok (i : nat) (p : Platform) : settled unit := Returned tt.

(** Tumblr's token endpoint is unreachable. *)
Definition prerequest_tumblr_down (i : nat) (p : Platform) : settled unit :=
  if String.eqb (name p) "TUMBLR"
  then Raised {| exn_cls := ClientError; exn_name := "ClientConnectorError";
                 exn_text := "Cannot connect to host" |}
  else Returned tt.

Definition connection_reset : exn :=
  {| exn_cls := ClientError; exn_name := "ClientOSError"; exn_text := "Connection reset by peer" |}.

Definition timed_out : exn :=
  {| exn_cls := OtherError; exn_name := "TimeoutError"; exn_text := "" |}.

(** GitHub names are taken, Tumblr's endpoint drops the connection, all
    other names are free. *)
Definition is_username_available (i : nat) (p : Platform) (u : string)
    : settled QueryResult :=
  if String.eqb (name p) "TUMBLR" then Raised connection_reset
  else if String.eqb (name p) "GITHUB" then
    Returned {| username := u; platform := p; valid := false; success := true;
                message := "Username is already taken" |}
  else
    Returned {| username := u; platform := p; valid := true; success := true;
                message := "Available" |}.

Definition in_order (k : nat) : nat := 0.
Definition interleaved (k : nat) : nat := 2 * k + 1.

Definition args : Namespace :=
  {| usernames := ["alice"; "bob"; "alice"];
     restrict := Some ["github"; "Tumblr"; "SNAPCHAT"];
     input_file := None;
     cache_tokens := true;
     available_only := false |}.

Definition args_available_only : Namespace :=
  {| usernames := ["alice"; "bob"; "alice"];
     restrict := Some ["github"; "Tumblr"; "SNAPCHAT"];
     input_file := None;
     cache_tokens := true;
     available_only := true |}.

Definition args_input_file : Namespace :=
  {| usernames := ["alice"];
     restrict := None;
     input_file := Some "names.txt";
     cache_tokens := false;
     available_only := false |}.

Definition args_unknown_platform : Namespace :=
  {| usernames := ["alice"];
     restrict := Some ["github"; "myspace"];
     input_file := None;
     cache_tokens := true;
     available_only := false |}.

(** Snapchat's endpoint does not answer in time: [asyncio.TimeoutError] is
    neither an [aiohttp.ClientError] nor a [KeyError]. *)
Definition is_username_available_slow (i : nat) (p : Platform) (u : string)
    : settled QueryResult :=
  if String.eqb (name p) "SNAPCHAT" then Raised timed_out
  else is_username_available i p u.

Definition run (a : Namespace) : M unit :=
  main Platforms no_files prerequest_ok is_username_available in_order interleaved a.

Definition run_tumblr_down (a : Namespace) : M unit :=
  main Platforms no_files prerequest_tumblr_down is_username_available
    in_order interleaved a.

Definition run_slow (a : Namespace) : M unit :=
  main Platforms no_files prerequest_ok is_username_available_slow
    in_order interleaved a.

Definition run_with_file (a : Namespace) : M unit :=
  main Platforms one_file prerequest_ok is_username_available in_order interleaved a.

End Sample.

(** ** Notions the properties are stated with *)


(** Enumeration members are named in upper case. *)
Definition uppercase (n : string) : Prop := Py.upper n = n.

(** A list without its repeated occurrences: each element is kept where it
    first appears. *)
Fixpoint first_occurrences (l : list string) : list string :=
  match l with
  | [] => []
  | x :: l' => x :: filter (fun y => y ≠ x) (first_occurrences l')
  end.

(** The sort keys of lines 79-80. *)
Definition rank_key (r : QueryResult) : bool * bool := (valid r, success r).
Definition name_key (r : QueryResult) : string := name (platform r).

(** Position of a response's group in descending order of
    [(valid, success)]. *)
Definition group_index (r : QueryResult) : nat :=
  match valid r, success r with
  | true, true => 0
  | true, false => 1
  | false, true => 2
  | false, false => 3
  end.

(** [a] may be presented before [b]: its group is not later, and within
    one group its platform name, seen through [norm], is not greater. *)
Definition presentation_le (norm : string -> string) (a b : QueryResult) : Prop :=
  group_index a <= group_index b /\
  (group_index a = group_index b ->
   Py.str_ltb (norm (name_key b)) (norm (name_key a)) = false).

(** The three groups of the sort law: available and successful, taken and
    successful, unsuccessful. *)
Definition law_group (r : QueryResult) : nat :=
  if success r then (if valid r then 0 else 1) else 2.

Definition three_group_law (out : list QueryResult) : Prop :=
  StronglySorted (fun a b => law_group a <= law_group b) out.

Module SortSample.

Definition taken : QueryResult :=
  {| username := "alice"; platform := {| name := "GITHUB" |};
     valid := false; success := true; message := "Username is already taken" |}.

Definition errored : QueryResult :=
  {| username := "alice"; platform := {| name := "TUMBLR" |};
     valid := true; success := false; message := "Rate limited" |}.

Definition free : QueryResult :=
  {| username := "alice"; platform := {| name := "SNAPCHAT" |};
     valid := true; success := true; message := "Available" |}.

End SortSample.

(** What the fan-out sees of its coroutines. *)
Section Outcomes.
Variable is_username_available : nat -> Platform -> string -> settled QueryResult.

Definition outcome (q : nat * (Platform * string)) : settled QueryResult :=
  is_username_available (fst q) (fst (snd q)) (snd (snd q)).

Definition settle_event (q : nat * (Platform * string)) : event :=
  QuerySettled (fst q) (fst (snd q)) (snd (snd q)) (outcome q).

(** The coroutine returns a response, or raises one of the two kinds of
    exception line 72 names. *)
Definition recoverable (q : nat * (Platform * string)) : Prop :=
  match outcome q with
  | Returned _ => True
  | Raised e => caught e = true
  end.

Definition returned_of (qs : list (nat * (Platform * string))) : list QueryResult :=
  omap (fun q => match outcome q with Returned r => Some r | Raised _ => None end) qs.

Definition raised_of (qs : list (nat * (Platform * string))) : list exn :=
  omap (fun q => match outcome q with Returned _ => None | Raised e => Some e end) qs.
End Outcomes.

(** The filter of line 69. *)
Definition keeps (available_only : bool) (response : QueryResult) : bool :=
  available_only && valid response || negb available_only.

(** All responses held by [results], whatever their key. *)
Definition retained (results : gmap string (list QueryResult)) : list QueryResult :=
  concat (map snd (map_to_list results)).

(** What the token prefetch shows of one coroutine. *)
Definition prerequest_event (prerequest : nat -> Platform -> settled unit)
    (c : nat * Platform) : event :=
  PrerequestSettled (fst c) (snd c) (prerequest (fst c) (snd c)).

Definition is_query_started (ev : event) : bool :=
  match ev with QueryStarted _ _ _ => true | _ => false end.

(** The coroutines started by the fan-out, in the order of their start. *)
Definition queries_started (tr : list event) : list (nat * (Platform * string)) :=
  omap (fun ev => match ev with QueryStarted i p u => Some (i, (p, u)) | _ => None end) tr.

Definition prerequest_started (c : nat * Platform) : event :=
  PrerequestStarted (fst c) (snd c).

Definition query_started (q : nat * (Platform * string)) : event :=
  QueryStarted (fst q) (fst (snd q)) (snd (snd q)).

(** Lines 92-93, after the session is closed. *)
Definition finish (m : M (list string * nat)) : M unit :=
  out <- m ;;
  emit (Stderr (fst out)) ;;;
  emit (Stdout (Summary (snd out))).


(** What a token prefetch that succeeds for every platform shows. *)
Definition prefetch_trace (prerequest : nat -> Platform -> settled unit)
    (pick : nat -> nat) (platforms : list Platform) : list event :=
  Stdout CachingTokens
  :: map prerequest_started (numbered platforms)
  ++ map (prerequest_event prerequest) (as_completed pick (numbered platforms))
  ++ [Stdout ClearLine].

Definition is_report_end (ev : event) : bool :=
  match ev with
  | Stderr _ | Stdout (Summary _) => true
  | _ => false
  end.

Definition is_query_event (ev : event) : bool :=
  match ev with
  | QueryStarted _ _ _ | QuerySettled _ _ _ _ => true
  | _ => false
  end.

(** A prefetch failure is isolated when every prefetch coroutine is still
    awaited to its end and the availability checks are started all the
    same. *)
Definition prefetch_failure_isolated (tr : list event)
    (coros : list (nat * Platform)) (queries : list (nat * (Platform * string))) : Prop :=
  (forall c, c ∈ coros -> exists o, PrerequestSettled (fst c) (snd c) o ∈ tr)
  /\ queries_started tr = queries.

(** The query counts printed by line 93. *)
Definition summaries (tr : list event) : list nat :=
  omap (fun ev => match ev with Stdout (Summary n) => Some n | _ => None end) tr.

Definition is_summary (ev : event) : bool :=
  match ev with Stdout (Summary _) => true | _ => false end.

(** The printed report read back: every header opens the block of a
    username, and the entries that follow it up to the next header are that
    block's responses. The first component holds the entries met before any
    header. *)
Fixpoint parse_report (tr : list event)
    : list QueryResult * list (string * list QueryResult) :=
  match tr with
  | [] => ([], [])
  | ev :: tr' =>
      let '(entries, blocks) := parse_report tr' in
      match ev with
      | Stdout (Header _ u) => ([], (u, entries) :: blocks)
      | Stdout (Entry _ _ r) => (r :: entries, blocks)
      | _ => (entries, blocks)
      end
  end.

Definition report_blocks (tr : list event) : list (string * list QueryResult) :=
  snd (parse_report tr).

Definition is_report_item (ev : event) : bool :=
  match ev with
  | Stdout (Header _ _) | Stdout (Entry _ _ _) => true
  | _ => false
  end.

(** Every prefetch coroutine of the selected platforms returns. *)
Definition prefetch_succeeds (prerequest : nat -> Platform -> settled unit)
    (platforms : list Platform) : Prop :=
  Forall (fun c => prerequest (fst c) (snd c) = Returned tt) (numbered platforms).

(** [x] may stand before [y] in ascending order of the keys. *)
Definition key_le {A K} (ltb : K -> K -> bool) (key : A -> K) (x y : A) : Prop :=
  ltb (key y) (key x) = false.

(** ** Further observations of a run *)

(** The prefetch coroutines started by a run, in the order of their start. *)
Definition prerequests_started (tr : list event) : list (nat * Platform) :=
  omap (fun ev => match ev with PrerequestStarted i p => Some (i, p) | _ => None end) tr.

(** The availability checks whose result the collection loop has received,
    in the order in which it received them. *)
Definition queries_settled (tr : list event) : list (nat * (Platform * string)) :=
  omap (fun ev => match ev with QuerySettled i p u _ => Some (i, (p, u)) | _ => None end) tr.

(** What line 92 wrote to the error stream, one element per [print]. *)
Definition stderr_reports (tr : list event) : list (list string) :=
  omap (fun ev => match ev with Stderr lines => Some lines | _ => None end) tr.

Definition is_session_event (ev : event) : bool :=
  match ev with SessionOpened | SessionClosed => true | _ => false end.

(** Events that use the HTTP session. *)
Definition is_network_event (ev : event) : bool :=
  match ev with
  | PrerequestStarted _ _ | PrerequestSettled _ _ _
  | QueryStarted _ _ _ | QuerySettled _ _ _ _ => true
  | _ => false
  end.

(** Events of the token prefetch phase (lines 60-62). *)
Definition is_prefetch_event (ev : event) : bool :=
  match ev with
  | PrerequestStarted _ _ | PrerequestSettled _ _ _
  | Stdout CachingTokens | Stdout ClearLine => true
  | _ => false
  end.

Definition is_stdout (ev : event) : bool :=
  match ev with Stdout _ => true | _ => false end.

Definition is_entry (ev : event) : bool :=
  match ev with Stdout (Entry _ _ _) => true | _ => false end.

Definition is_header (ev : event) : bool :=
  match ev with Stdout (Header _ _) => true | _ => false end.

Definition is_query_settled (ev : event) : bool :=
  match ev with QuerySettled _ _ _ _ => true | _ => false end.

Definition is_stderr (ev : event) : bool :=
  match ev with Stderr _ => true | _ => false end.

(** The arguments pass lines 40-55 and select [platforms]. *)
Definition accepted (Platforms : list Platform) (args : Namespace)
    (platforms : list Platform) : Prop :=
  truthy_str (input_file args) = false
  /\ usernames args <> []
  /\ select_platforms Platforms args = ([], inr platforms).

(** Each response carries the username its check was made for. *)
Definition answers_its_query
    (is_username_available : nat -> Platform -> string -> settled QueryResult)
    (queries : list (nat * (Platform * string))) : Prop :=
  forall q r, q ∈ queries -> outcome is_username_available q = Returned r ->
              username r = snd (snd q).

(** No two of the responses received for one username agree on platform
    name, validity and success. *)
Definition distinguishable (responses : list QueryResult) : Prop :=
  forall a b, a ∈ responses -> b ∈ responses ->
              username a = username b -> name_key a = name_key b ->
              rank_key a = rank_key b -> a = b.

Module ExtraSample.

Definition args_no_usernames : Namespace :=
  {| usernames := [];
     restrict := Some ["myspace"];
     input_file := None;
     cache_tokens := true;
     available_only := false |}.

Definition args_repeated_platform : Namespace :=
  {| usernames := ["alice"];
     restrict := Some ["github"; "GitHub"];
     input_file := None;
     cache_tokens := false;
     available_only := false |}.

Definition args_plain : Namespace :=
  {| usernames := ["bob"; "alice"];
     restrict := None;
     input_file := None;
     cache_tokens := false;
     available_only := false |}.

Definition reversed (k : nat) : nat := 1000 - k.

End ExtraSample.

(** * Properties *)

(** ** Strings *)

Lemma ascii_upper_lower c : Py.ascii_upper (Py.ascii_lower c) = Py.ascii_upper c.
Proof. destruct c as [[] [] [] [] [] [] [] []]; reflexivity. Qed.


Lemma upper_lower s : Py.upper (Py.lower s) = Py.upper s.
Proof.
  induction s as [|c s IH]; [reflexivity|].
  cbn. rewrite ascii_upper_lower. f_equal. exact IH.
Qed.




(** ** [dict.fromkeys] *)

Lemma filter_filter_notin (acc : list string) x (l : list string) :
  x ∈ acc ->
  filter (fun k => k ∉ acc) (filter (fun y => y ≠ x) l) = filter (fun k => k ∉ acc) l.
Proof.
  intros Hx. induction l as [|y l IH]; [reflexivity|].
  rewrite !filter_cons. destruct (decide (y ≠ x)) as [Hne|He].
  - rewrite filter_cons. destruct (decide (y ∉ acc)); [f_equal|]; exact IH.
  - assert (y = x) by (destruct (decide (y = x)); [assumption|contradiction]). subst y.
    destruct (decide (x ∉ acc)); [contradiction|]. exact IH.
Qed.

Lemma filter_notin_snoc (acc : list string) x (l : list string) :
  filter (fun k => k ∉ acc ++ [x]) l
  = filter (fun k => k ∉ acc) (filter (fun y => y ≠ x) l).
Proof.
  induction l as [|y l IH]; [reflexivity|].
  rewrite !filter_cons. destruct (decide (y ≠ x)) as [Hne|He].
  - rewrite filter_cons. destruct (decide (y ∉ acc)) as [Hy|Hy].
    + rewrite decide_True. { f_equal. exact IH. }
      rewrite elem_of_app, list_elem_of_singleton. tauto.
    + rewrite decide_False. { exact IH. }
      rewrite elem_of_app. tauto.
  - rewrite decide_False. { exact IH. }
    rewrite elem_of_app, list_elem_of_singleton. intros Hn. apply He. intros ->. tauto.
Qed.

Lemma fromkeys_from acc l :
  fold_left Py.fromkeys_step l acc = acc ++ filter (fun k => k ∉ acc) (first_occurrences l).
Proof.
  revert acc. induction l as [|x l IH]; intros acc.
  - cbn. rewrite app_nil_r. reflexivity.
  - cbn [fold_left first_occurrences]. rewrite IH. unfold Py.fromkeys_step.
    rewrite filter_cons. case_bool_decide as Hx.
    + rewrite decide_False by tauto. rewrite filter_filter_notin by assumption.
      reflexivity.
    + rewrite decide_True by assumption. rewrite filter_notin_snoc.
      rewrite <- app_assoc. reflexivity.
Qed.

Lemma dict_fromkeys_first_occurrences l : Py.dict_fromkeys l = first_occurrences l.
Proof.
  unfold Py.dict_fromkeys.
  rewrite fromkeys_from. cbn.
  induction (first_occurrences l) as [|k ks IH]; [reflexivity|].
  rewrite filter_cons_True by apply not_elem_of_nil. f_equal. exact IH.
Qed.

Lemma first_occurrences_elem x l : x ∈ first_occurrences l <-> x ∈ l.
Proof.
  induction l as [|y l IH]; [reflexivity|].
  cbn. rewrite !elem_of_cons, list_elem_of_filter, IH.
  destruct (decide (x = y)); tauto.
Qed.

Lemma first_occurrences_NoDup l : NoDup (first_occurrences l).
Proof.
  induction l as [|y l IH]; cbn; constructor.
  - rewrite list_elem_of_filter. tauto.
  - apply NoDup_filter. exact IH.
Qed.


(** ** Completion order *)

Lemma completion_order_perm {X} (pick : nat -> nat) fuel : forall k (pending : list X),
  length pending = fuel -> completion_order pick k fuel pending ≡ₚ pending.
Proof.
  induction fuel as [|fuel IH]; intros k pending Hlen.
  - destruct pending; [reflexivity|discriminate].
  - cbn [completion_order].
    destruct (lookup_lt_is_Some_2 pending (pick k `mod` length pending)) as [x Hx].
    { apply Nat.mod_upper_bound. lia. }
    rewrite Hx. rewrite IH.
    + symmetry. apply delete_Permutation. exact Hx.
    + rewrite length_delete by eauto. lia.
Qed.

Lemma as_completed_perm {X} (pick : nat -> nat) (aws : list X) :
  as_completed pick aws ≡ₚ aws.
Proof. apply completion_order_perm. reflexivity. Qed.

(** ** [list.sort] *)

Section SortFacts.
Context {A K : Type} `{EqDecision K} (ltb : K -> K -> bool) (key : A -> K).

Abbreviation kle := (key_le ltb key).

Hypothesis ltb_irrefl : forall a, ltb a a = false.
Hypothesis ltb_asym : forall a b, ltb a b = true -> ltb b a = false.
Hypothesis ltb_le_trans : forall a b c,
  ltb b a = false -> ltb c b = false -> ltb c a = false.

Lemma insert_stable_perm x l : Py.insert_stable ltb key x l ≡ₚ x :: l.
Proof using Type.
  induction l as [|y l IH]; [reflexivity|].
  cbn. destruct (ltb (key y) (key x)); [|reflexivity].
  rewrite IH. apply perm_swap.
Qed.

Lemma sort_ascending_perm l : Py.sort_ascending ltb key l ≡ₚ l.
Proof using Type.
  induction l as [|x l IH]; [reflexivity|].
  cbn. rewrite insert_stable_perm, IH. reflexivity.
Qed.

Lemma list_sort_perm reverse l : Py.list_sort ltb key reverse l ≡ₚ l.
Proof using Type.
  unfold Py.list_sort. destruct reverse.
  - rewrite <- Permutation_rev, sort_ascending_perm, <- Permutation_rev. reflexivity.
  - apply sort_ascending_perm.
Qed.

Lemma insert_stable_sorted x l :
  StronglySorted kle l -> StronglySorted kle (Py.insert_stable ltb key x l).
Proof using ltb_asym ltb_le_trans.
  induction 1 as [|y l Hl IH Hy]; cbn.
  - repeat constructor.
  - destruct (ltb (key y) (key x)) eqn:E.
    + constructor; [exact IH|].
      rewrite insert_stable_perm. constructor; [|exact Hy].
      unfold key_le. apply ltb_asym. exact E.
    + constructor; [constructor; assumption|].
      constructor; [exact E|].
      eapply Forall_impl; [exact Hy|]. intros z Hz.
      unfold key_le in *. eapply ltb_le_trans; eassumption.
Qed.

Lemma sort_ascending_sorted l : StronglySorted kle (Py.sort_ascending ltb key l).
Proof using ltb_asym ltb_le_trans.
  induction l as [|x l IH]; cbn; [constructor|].
  apply insert_stable_sorted. exact IH.
Qed.

(** Stability: the elements carrying any one key keep their order. *)
Lemma insert_stable_filter k x l :
  filter (fun y => key y = k) (Py.insert_stable ltb key x l)
  = filter (fun y => key y = k) (x :: l).
Proof using ltb_irrefl.
  induction l as [|y l IH]; [reflexivity|].
  cbn [Py.insert_stable]. destruct (ltb (key y) (key x)) eqn:E; [|reflexivity].
  assert (Hne : key y <> key x).
  { intros Heq. rewrite Heq, ltb_irrefl in E. discriminate. }
  rewrite (filter_cons _ y), IH, !(filter_cons _ x), (filter_cons _ y).
  destruct (decide (key y = k)), (decide (key x = k)); congruence.
Qed.

Lemma sort_ascending_filter k l :
  filter (fun y => key y = k) (Py.sort_ascending ltb key l)
  = filter (fun y => key y = k) l.
Proof using ltb_irrefl.
  induction l as [|x l IH]; [reflexivity|].
  cbn [Py.sort_ascending]. rewrite insert_stable_filter, !filter_cons, IH.
  reflexivity.
Qed.

Lemma filter_rev (P : A -> Prop) `{forall x, Decision (P x)} l :
  filter P (rev l) = rev (filter P l).
Proof using Type.
  induction l as [|x l IH]; [reflexivity|].
  cbn [rev]. rewrite filter_app, IH, (filter_cons _ x l), (filter_cons _ x []).
  destruct (decide (P x)); cbn.
  - reflexivity.
  - rewrite app_nil_r. reflexivity.
Qed.

Lemma list_sort_filter reverse k l :
  filter (fun y => key y = k) (Py.list_sort ltb key reverse l)
  = filter (fun y => key y = k) l.
Proof using ltb_irrefl.
  unfold Py.list_sort. destruct reverse.
  - rewrite filter_rev, sort_ascending_filter, filter_rev. apply rev_involutive.
  - apply sort_ascending_filter.
Qed.

Lemma StronglySorted_rev (R : A -> A -> Prop) l :
  StronglySorted R l -> StronglySorted (flip R) (rev l).
Proof using Type.
  induction 1 as [|x l Hl IH Hx]; cbn; [constructor|].
  apply StronglySorted_app_2; [|exact IH|repeat constructor].
  intros a b Ha Hb. apply list_elem_of_singleton in Hb. subst b.
  unfold flip. rewrite Forall_forall in Hx. apply Hx.
  apply list_elem_of_In, in_rev, list_elem_of_In. exact Ha.
Qed.

Lemma list_sort_sorted l : StronglySorted kle (Py.list_sort ltb key false l).
Proof using ltb_asym ltb_le_trans. apply sort_ascending_sorted. Qed.

Lemma list_sort_reverse_sorted l :
  StronglySorted (flip kle) (Py.list_sort ltb key true l).
Proof using ltb_asym ltb_le_trans.
  apply StronglySorted_rev, sort_ascending_sorted.
Qed.
End SortFacts.

(** The two orders [main] sorts by. *)

Lemma str_ltb_irrefl s : Py.str_ltb s s = false.
Proof.
  induction s as [|c s IH]; [reflexivity|].
  cbn [Py.str_ltb]. rewrite Nat.ltb_irrefl. exact IH.
Qed.

Lemma str_ltb_asym s t : Py.str_ltb s t = true -> Py.str_ltb t s = false.
Proof.
  revert t. induction s as [|a s IH]; intros [|b t]; cbn [Py.str_ltb]; try congruence.
  destruct (Nat.ltb_spec (nat_of_ascii a) (nat_of_ascii b)),
           (Nat.ltb_spec (nat_of_ascii b) (nat_of_ascii a));
    try congruence; try lia.
  apply IH.
Qed.

Lemma str_ltb_le_trans s t u :
  Py.str_ltb t s = false -> Py.str_ltb u t = false -> Py.str_ltb u s = false.
Proof.
  revert t u. induction s as [|a s IH]; intros [|b t] [|c u]; cbn [Py.str_ltb]; try congruence.
  destruct (Nat.ltb_spec (nat_of_ascii b) (nat_of_ascii a)),
           (Nat.ltb_spec (nat_of_ascii a) (nat_of_ascii b)),
           (Nat.ltb_spec (nat_of_ascii c) (nat_of_ascii b)),
           (Nat.ltb_spec (nat_of_ascii b) (nat_of_ascii c)),
           (Nat.ltb_spec (nat_of_ascii c) (nat_of_ascii a)),
           (Nat.ltb_spec (nat_of_ascii a) (nat_of_ascii c));
    try congruence; try lia.
  apply IH.
Qed.

Lemma pair_ltb_irrefl a : Py.pair_ltb a a = false.
Proof. destruct a as [[] []]; reflexivity. Qed.

Lemma pair_ltb_asym a b : Py.pair_ltb a b = true -> Py.pair_ltb b a = false.
Proof. destruct a as [[] []], b as [[] []]; cbn; congruence. Qed.

Lemma pair_ltb_le_trans a b c :
  Py.pair_ltb b a = false -> Py.pair_ltb c b = false -> Py.pair_ltb c a = false.
Proof. destruct a as [[] []], b as [[] []], c as [[] []]; cbn; congruence. Qed.

(** ** The presentation sort (lines 79-80) *)

Lemma StronglySorted_filter {A} (R : A -> A -> Prop) (P : A -> Prop)
    `{forall x, Decision (P x)} l :
  StronglySorted R l -> StronglySorted R (filter P l).
Proof.
  induction 1 as [|x l Hl IH Hx]; [constructor|].
  rewrite filter_cons. destruct (decide (P x)); [|exact IH].
  constructor; [exact IH|].
  rewrite Forall_forall in *. intros y Hy.
  apply list_elem_of_filter in Hy. apply Hx, Hy.
Qed.

Lemma sorted_within_groups {A K} `{EqDecision K} (R1 R2 : A -> A -> Prop)
    (g : A -> K) out :
  StronglySorted R1 out ->
  (forall k, StronglySorted R2 (filter (fun x => g x = k) out)) ->
  StronglySorted (fun a b => R1 a b /\ (g a = g b -> R2 a b)) out.
Proof.
  induction 1 as [|x out Hout IH Hx]; intros Hg; [constructor|].
  constructor.
  - apply IH. intros k. specialize (Hg k). rewrite filter_cons in Hg.
    destruct (decide (g x = k)); [|exact Hg].
    apply StronglySorted_inv in Hg. apply Hg.
  - rewrite Forall_forall in *. intros b Hb. split; [apply Hx, Hb|].
    intros Heq. specialize (Hg (g x)). rewrite filter_cons_True in Hg by reflexivity.
    apply StronglySorted_inv in Hg. destruct Hg as [_ Hg].
    rewrite Forall_forall in Hg. apply Hg.
    apply list_elem_of_filter. split; [symmetry; exact Heq|exact Hb].
Qed.

Lemma StronglySorted_on {A} (R R' : A -> A -> Prop) (P : A -> Prop) l :
  Forall P l ->
  (forall a b, P a -> P b -> R a b -> R' a b) ->
  StronglySorted R l -> StronglySorted R' l.
Proof.
  intros HP Himp. induction 1 as [|x l Hl IH Hx]; [constructor|].
  apply Forall_cons in HP. destruct HP as [Px Pl].
  constructor; [apply IH, Pl|].
  rewrite Forall_forall in *. intros y Hy. apply Himp; auto.
Qed.

Lemma group_index_rank a b :
  (Py.pair_ltb (rank_key a) (rank_key b) = false <-> group_index a <= group_index b)
  /\ (group_index a = group_index b <-> rank_key a = rank_key b).
Proof.
  unfold rank_key, group_index, Py.pair_ltb.
  destruct (valid a), (success a), (valid b), (success b); cbn;
    (split; split; intros; (congruence || lia)).
Qed.

Lemma sort_responses_perm l : sort_responses l ≡ₚ l.
Proof. unfold sort_responses. rewrite !list_sort_perm. reflexivity. Qed.

Lemma sort_responses_rank_filter k l :
  filter (fun r => rank_key r = k) (sort_responses l)
  = filter (fun r => rank_key r = k)
      (Py.list_sort Py.str_ltb name_key false l).
Proof.
  unfold sort_responses.
  apply (list_sort_filter Py.pair_ltb rank_key pair_ltb_irrefl).
Qed.

Lemma sort_responses_sorted l : StronglySorted (presentation_le id) (sort_responses l).
Proof.
  eapply (StronglySorted_on _ _ (fun _ => True)).
  { apply Forall_forall. intros; exact I. }
  2:{ apply (sorted_within_groups
               (flip (key_le Py.pair_ltb rank_key)) (key_le Py.str_ltb name_key) rank_key).
      - apply list_sort_reverse_sorted; [apply pair_ltb_asym|apply pair_ltb_le_trans].
      - intros k. rewrite sort_responses_rank_filter.
        apply StronglySorted_filter, list_sort_sorted;
          [apply str_ltb_asym|apply str_ltb_le_trans]. }
  intros a b _ _ [H1 H2]. unfold flip, key_le in *.
  destruct (group_index_rank a b) as [Hle Heq]. split.
  - apply Hle, H1.
  - intros Hg. apply H2, Heq, Hg.
Qed.

Lemma sort_responses_stable k n l :
  filter (fun r => rank_key r = k /\ name_key r = n) (sort_responses l)
  = filter (fun r => rank_key r = k /\ name_key r = n) l.
Proof.
  rewrite <- !(list_filter_filter (fun r => rank_key r = k) (fun r => name_key r = n)).
  rewrite <- (list_sort_filter Py.str_ltb name_key str_ltb_irrefl false n l).
  rewrite !list_filter_filter.
  rewrite (list_filter_iff _ (fun r => name_key r = n /\ rank_key r = k)) by tauto.
  rewrite (list_filter_iff (fun r => rank_key r = k /\ name_key r = n)
             (fun r => name_key r = n /\ rank_key r = k)) by tauto.
  rewrite <- !(list_filter_filter (fun r => name_key r = n) (fun r => rank_key r = k)).
  rewrite sort_responses_rank_filter. reflexivity.
Qed.

Lemma law_group_of_index a b :
  (valid a = true -> success a = true) ->
  (valid b = true -> success b = true) ->
  group_index a <= group_index b -> law_group a <= law_group b.
Proof.
  unfold group_index, law_group.
  destruct (valid a), (success a), (valid b), (success b); cbn; intros Ha Hb;
    try lia; (specialize (Ha eq_refl) || specialize (Hb eq_refl)); discriminate.
Qed.

(** C2, as the code has it. After lines 79-80 a username's responses are a
    rearrangement of the retained ones in which the groups come in
    descending order of the pair (valid, success) -- (True, True), then
    (True, False), then (False, True), then (False, False) -- and, within a
    group, in ascending order of the platform name as it is; for names in
    upper case this is the order of the case-normalised names. When no
    response is valid without being successful, this is the order available,
    taken, unsuccessful. Responses that agree on (valid, success) and on the
    platform name keep the order in which they were collected. *)
Theorem sort_responses_law (l : list QueryResult) :
  sort_responses l ≡ₚ l
  /\ StronglySorted (presentation_le id) (sort_responses l)
  /\ (Forall (fun r => uppercase (name_key r)) l ->
      StronglySorted (presentation_le Py.upper) (sort_responses l))
  /\ (Forall (fun r => valid r = true -> success r = true) l ->
      three_group_law (sort_responses l))
  /\ (forall k n,
        filter (fun r => rank_key r = k /\ name_key r = n) (sort_responses l)
        = filter (fun r => rank_key r = k /\ name_key r = n) l).
Proof.
  split; [apply sort_responses_perm|].
  split; [apply sort_responses_sorted|].
  split; [|split].
  - intros Hup. eapply StronglySorted_on; [| |apply sort_responses_sorted].
    + rewrite sort_responses_perm. exact Hup.
    + intros a b Ha Hb [H1 H2]. split; [exact H1|].
      unfold uppercase in Ha, Hb. cbn beta in Ha, Hb. rewrite Ha, Hb. exact H2.
  - intros Hok. eapply StronglySorted_on; [| |apply sort_responses_sorted].
    + rewrite sort_responses_perm. exact Hok.
    + intros a b Ha Hb [H1 _]. apply law_group_of_index; assumption.
  - intros k n. apply sort_responses_stable.
Qed.

(** Counterexample to C2 as the sort law words it: a response that is valid
    but not successful is placed before a successful response that is not
    valid. *)
Lemma three_group_law_fails :
  sort_responses [SortSample.taken; SortSample.errored]
    = [SortSample.errored; SortSample.taken]
  /\ ~ three_group_law (sort_responses [SortSample.taken; SortSample.errored]).
Proof.
  split; [reflexivity|].
  intros H. change (sort_responses [SortSample.taken; SortSample.errored])
    with [SortSample.errored; SortSample.taken] in H.
  apply StronglySorted_inv in H. destruct H as [_ H].
  apply Forall_cons in H. destruct H as [H _]. cbn in H. lia.
Qed.

(** ** Effects *)

Lemma bind_inl {A B} tr e (k : A -> M B) : bind (tr, inl e) k = (tr, inl e).
Proof. reflexivity. Qed.

Lemma bind_inr {A B} tr a (k : A -> M B) :
  bind (tr, inr a) k = (tr ++ fst (k a), snd (k a)).
Proof. cbn. destruct (k a). reflexivity. Qed.

Lemma bind_ret {A B} (a : A) (k : A -> M B) : bind ([], inr a) k = k a.
Proof. cbn. destruct (k a). reflexivity. Qed.

Lemma bind_ret' {A B} (a : A) (k : A -> M B) : bind (ret a) k = k a.
Proof. apply bind_ret. Qed.

Lemma for_each_nil {X S} (body : S -> X -> M S) s : for_each [] body s = ([], inr s).
Proof. reflexivity. Qed.

Lemma for_each_cons {X S} x l (body : S -> X -> M S) s :
  for_each (x :: l) body s = bind (body s x) (fun s' => for_each l body s').
Proof. reflexivity. Qed.

(** ** The token prefetch (line 61) *)

Section Prefetch.
Variable prerequest : nat -> Platform -> settled unit.

Abbreviation gbody := (gather_body prerequest).

Lemma gather_body_eq u c :
  gbody u c
  = ([prerequest_event prerequest c],
     match prerequest (fst c) (snd c) with
     | Returned _ => inr tt
     | Raised e => inl e
     end).
Proof.
  unfold gather_body, prerequest_event.
  destruct (prerequest (fst c) (snd c)); reflexivity.
Qed.

Lemma gather_loop_ok cs :
  Forall (fun c => prerequest (fst c) (snd c) = Returned tt) cs ->
  for_each cs gbody tt = (map (prerequest_event prerequest) cs, inr tt).
Proof.
  induction 1 as [|c cs Hc Hcs IH]; [reflexivity|].
  rewrite for_each_cons, gather_body_eq, Hc, bind_inr, IH. reflexivity.
Qed.

Lemma gather_loop_inv cs :
  match snd (for_each cs gbody tt) with
  | inr _ =>
      Forall (fun c => prerequest (fst c) (snd c) = Returned tt) cs
  | inl e =>
      exists pre c post, cs = pre ++ c :: post
        /\ Forall (fun c => prerequest (fst c) (snd c) = Returned tt) pre
        /\ prerequest (fst c) (snd c) = Raised e
        /\ fst (for_each cs gbody tt)
           = map (prerequest_event prerequest) (pre ++ [c])
  end.
Proof.
  induction cs as [|c cs IH]; [constructor|].
  rewrite for_each_cons, gather_body_eq.
  destruct (prerequest (fst c) (snd c)) as [[]|e] eqn:Hc.
  - rewrite bind_inr. cbn [fst snd].
    destruct (for_each cs gbody tt) as [tr [e|[]]]; cbn [fst snd] in *.
    + destruct IH as (pre & c' & post & -> & Hpre & Hc' & Htr).
      exists (c :: pre), c', post. repeat split; [constructor; assumption|assumption|].
      rewrite Htr. reflexivity.
    + constructor; assumption.
  - rewrite bind_inl. cbn [fst snd]. exists [], c, cs.
    repeat split; [constructor|assumption].
Qed.
End Prefetch.

(** ** The collection loop (lines 66-73) *)

Lemma retained_empty : retained ∅ = [].
Proof. unfold retained. rewrite map_to_list_empty. reflexivity. Qed.

Lemma retained_insert_fresh (m : gmap string (list QueryResult)) k v :
  m !! k = None -> retained (<[k := v]> m) ≡ₚ v ++ retained m.
Proof.
  intros Hk. unfold retained. rewrite (map_to_list_insert m k v Hk). reflexivity.
Qed.

Lemma retained_append (m : gmap string (list QueryResult)) r :
  retained (<[username r := default [] (m !! username r) ++ [r]]> m) ≡ₚ r :: retained m.
Proof.
  destruct (m !! username r) as [v|] eqn:Hk; cbn [default from_option id].
  - rewrite <- insert_delete_eq.
    rewrite retained_insert_fresh by apply lookup_delete_eq.
    rewrite <- (insert_delete_id m (username r) v Hk) at 2.
    rewrite retained_insert_fresh by apply lookup_delete_eq.
    rewrite <- app_assoc. cbn [app]. symmetry. apply Permutation_middle.
  - rewrite retained_insert_fresh by assumption. reflexivity.
Qed.

Section Collect.
Variable is_username_available : nat -> Platform -> string -> settled QueryResult.
Variable available_only : bool.

Abbreviation outcome' := (outcome is_username_available).
Abbreviation settle_event' := (settle_event is_username_available).
Abbreviation recoverable' := (recoverable is_username_available).
Abbreviation returned_of' := (returned_of is_username_available).
Abbreviation raised_of' := (raised_of is_username_available).
Abbreviation cbody := (collect_body is_username_available available_only).

Lemma collect_body_eq results exceptions q :
  cbody (results, exceptions) q
  = ([settle_event' q],
     match outcome' q with
     | Returned response =>
         inr (if keeps available_only response
              then (<[username response :=
                        default [] (results !! username response) ++ [response]]> results,
                    exceptions)
              else (results, exceptions))
     | Raised e =>
         if caught e then inr (results, exceptions ++ [format_exception e])
         else inl e
     end).
Proof.
  unfold collect_body, settle_event, outcome, keeps.
  destruct (is_username_available (fst q) (fst (snd q)) (snd (snd q))) as [r|e].
  - destruct (available_only && valid r || negb available_only); reflexivity.
  - destruct (caught e); reflexivity.
Qed.

Lemma returned_of_cons q cs :
  returned_of' (q :: cs)
  = match outcome' q with
    | Returned r => r :: returned_of' cs
    | Raised _ => returned_of' cs
    end.
Proof. unfold returned_of. simpl. destruct (outcome' q); reflexivity. Qed.

Lemma raised_of_cons q cs :
  raised_of' (q :: cs)
  = match outcome' q with
    | Returned _ => raised_of' cs
    | Raised e => e :: raised_of' cs
    end.
Proof. unfold raised_of. simpl. destruct (outcome' q); reflexivity. Qed.

Lemma collect_loop_ok cs : forall results exceptions,
  Forall recoverable' cs ->
  exists results',
    for_each cs cbody (results, exceptions)
    = (map settle_event' cs,
       inr (results', exceptions ++ map format_exception (raised_of' cs)))
    /\ (forall u, default [] (results' !! u)
                  = default [] (results !! u)
                    ++ filter (fun r => username r = u)
                         (filter (fun r => keeps available_only r = true) (returned_of' cs)))
    /\ retained results'
       ≡ₚ retained results
          ++ filter (fun r => keeps available_only r = true) (returned_of' cs).
Proof.
  induction cs as [|q cs IH]; intros results exceptions Hcs.
  - exists results. cbn. rewrite !app_nil_r. repeat split; try reflexivity.
    intros u. rewrite app_nil_r. reflexivity.
  - apply Forall_cons in Hcs. destruct Hcs as [Hq Hcs].
    rewrite for_each_cons, collect_body_eq, returned_of_cons, raised_of_cons.
    unfold recoverable in Hq.
    destruct (outcome' q) as [response|e] eqn:Hout.
    + rewrite bind_inr. destruct (keeps available_only response) eqn:Hkeep.
      * destruct (IH (<[username response :=
                         default [] (results !! username response) ++ [response]]> results)
                    exceptions Hcs) as (results' & Hrun & Hkey & Hret).
        exists results'. rewrite Hrun. split; [reflexivity|].
        rewrite filter_cons_True by assumption. split.
        -- intros u. rewrite Hkey, filter_cons.
           destruct (decide (username response = u)) as [<-|Hne].
           ++ rewrite lookup_insert_eq. cbn [default from_option id].
              rewrite <- !app_assoc. reflexivity.
           ++ rewrite lookup_insert_ne by assumption. reflexivity.
        -- rewrite Hret, retained_append. cbn [app]. apply Permutation_middle.
      * destruct (IH results exceptions Hcs) as (results' & Hrun & Hkey & Hret).
        exists results'. rewrite Hrun. split; [reflexivity|].
        rewrite filter_cons_False by (rewrite Hkeep; discriminate).
        split; assumption.
    + rewrite Hq, bind_inr.
      destruct (IH results (exceptions ++ [format_exception e]) Hcs)
        as (results' & Hrun & Hkey & Hret).
      exists results'. rewrite Hrun. cbn [map fst snd app]. rewrite <- app_assoc.
      split; [reflexivity|]. split; assumption.
Qed.

Lemma collect_loop_stop pre q post e : forall st,
  Forall recoverable' pre ->
  outcome' q = Raised e -> caught e = false ->
  for_each (pre ++ q :: post) cbody st
  = (map settle_event' (pre ++ [q]), inl e).
Proof.
  induction pre as [|p pre IH]; intros [results exceptions] Hpre Hq He.
  - cbn [app]. rewrite for_each_cons, collect_body_eq, Hq, He. reflexivity.
  - apply Forall_cons in Hpre. destruct Hpre as [Hp Hpre].
    cbn [app]. rewrite for_each_cons, collect_body_eq.
    unfold recoverable in Hp.
    destruct (outcome' p) as [r|e'].
    + rewrite bind_inr, IH by assumption. reflexivity.
    + rewrite Hp, bind_inr, IH by assumption. reflexivity.
Qed.

Lemma first_unrecoverable cs :
  Forall recoverable' cs
  \/ exists pre q post e, cs = pre ++ q :: post /\ Forall recoverable' pre
       /\ outcome' q = Raised e /\ caught e = false.
Proof.
  induction cs as [|q cs IH]; [left; constructor|].
  destruct (outcome' q) as [r|e] eqn:Hq.
  - destruct IH as [IH|(pre & q' & post & e & -> & Hpre & Hq' & He)].
    + left. constructor; [|assumption]. unfold recoverable. rewrite Hq. exact I.
    + right. exists (q :: pre), q', post, e. repeat split; try assumption.
      constructor; [|assumption]. unfold recoverable. rewrite Hq. exact I.
  - destruct (caught e) eqn:He.
    + destruct IH as [IH|(pre & q' & post & e' & -> & Hpre & Hq' & He')].
      * left. constructor; [|assumption]. unfold recoverable. rewrite Hq. exact He.
      * right. exists (q :: pre), q', post, e'. repeat split; try assumption.
        constructor; [|assumption]. unfold recoverable. rewrite Hq. exact He.
    + right. exists [], q, cs, e. repeat split; try assumption. constructor.
Qed.
End Collect.

(** ** Argument handling (lines 40-56) *)

Lemma getattr_input args : getattr args "input" = Raised (attribute_error "input").
Proof. reflexivity. Qed.

Lemma read_usernames_eq read_lines args :
  read_usernames read_lines args
  = if truthy_str (input_file args) then ([], inl (attribute_error "input"))
    else ([], inr (usernames args)).
Proof.
  unfold read_usernames. rewrite getattr_input.
  destruct (truthy_str (input_file args)); reflexivity.
Qed.

Section Select.
Variable Platforms : list Platform.

Abbreviation sbody := (select_body Platforms).

Lemma members_lookup_Some key q :
  members_lookup Platforms key = Some q -> q ∈ Platforms /\ name q = key.
Proof.
  unfold members_lookup. intros H. apply find_some in H. destruct H as [Hin Heq].
  split; [apply list_elem_of_In, Hin|]. apply String.eqb_eq, Heq.
Qed.

Lemma members_lookup_name p :
  p ∈ Platforms -> members_lookup Platforms (name p) = Some p.
Proof.
  unfold members_lookup. intros Hp.
  destruct (find _ Platforms) as [q|] eqn:Hfind.
  - apply find_some in Hfind. destruct Hfind as [_ Heq].
    apply String.eqb_eq in Heq. destruct p, q. cbn in Heq. congruence.
  - apply list_elem_of_In in Hp.
    pose proof (find_none _ _ Hfind p Hp) as Hne. cbn in Hne.
    rewrite String.eqb_refl in Hne. discriminate.
Qed.



Lemma select_loop_trace l : forall acc, fst (for_each l sbody acc) = [].
Proof.
  induction l as [|p l IH]; intros acc; [reflexivity|].
  rewrite for_each_cons. unfold select_body at 1.
  destruct (members_lookup Platforms (Py.upper p)).
  - unfold ret. rewrite bind_inr. cbn [fst app]. apply IH.
  - reflexivity.
Qed.



Lemma select_platforms_trace args : fst (select_platforms Platforms args) = [].
Proof.
  unfold select_platforms. destruct (truthy_list (restrict args)); [|reflexivity].
  apply select_loop_trace.
Qed.
End Select.

(** ** The phases of the session (lines 58-91) *)

Section Phases.
Variable prerequest : nat -> Platform -> settled unit.
Variable is_username_available : nat -> Platform -> string -> settled QueryResult.
Variable prerequest_pick : nat -> nat.
Variable query_pick : nat -> nat.

Abbreviation prerequest_ok :=
  (fun c : nat * Platform => prerequest (fst c) (snd c) = Returned tt).
Abbreviation outcome_ := (outcome is_username_available).
Abbreviation settle_event_ := (settle_event is_username_available).
Abbreviation recoverable_ := (recoverable is_username_available).
Abbreviation returned_of_ := (returned_of is_username_available).
Abbreviation raised_of_ := (raised_of is_username_available).

Lemma gather_prerequests_cases platforms :
  let coros := numbered platforms in
  let done := as_completed prerequest_pick coros in
  (Forall prerequest_ok coros
   /\ gather_prerequests prerequest prerequest_pick platforms
      = (map prerequest_started coros ++ map (prerequest_event prerequest) done, inr tt))
  \/ (exists pre c post e,
        done = pre ++ c :: post /\ Forall prerequest_ok pre
        /\ prerequest (fst c) (snd c) = Raised e
        /\ gather_prerequests prerequest prerequest_pick platforms
           = (map prerequest_started coros
              ++ map (prerequest_event prerequest) (pre ++ [c]), inl e)).
Proof.
  intros coros done. unfold gather_prerequests. fold coros. fold done.
  unfold emit_all. rewrite bind_inr.
  pose proof (gather_loop_inv prerequest done) as Hinv.
  destruct (for_each done (gather_body prerequest) tt) as [tr [e|[]]] eqn:Hloop;
    cbn [fst snd] in *.
  - right. destruct Hinv as (pre & c & post & Hdone & Hpre & Hc & Htr).
    exists pre, c, post, e. rewrite Htr. repeat split; assumption.
  - left. split.
    + rewrite <- (as_completed_perm prerequest_pick coros). exact Hinv.
    + rewrite gather_loop_ok in Hloop by exact Hinv.
      inversion Hloop. reflexivity.
Qed.

Lemma collect_cases available_only queries :
  let done := as_completed query_pick queries in
  (Forall recoverable_ done
   /\ exists results,
       collect is_username_available query_pick available_only queries
       = (map query_started queries ++ map settle_event_ done,
          inr (results, map format_exception (raised_of_ done)))
       /\ (forall u, default [] (results !! u)
                     = filter (fun r => username r = u)
                         (filter (fun r => keeps available_only r = true)
                            (returned_of_ done)))
       /\ retained results
          ≡ₚ filter (fun r => keeps available_only r = true) (returned_of_ done))
  \/ (exists pre q post e,
        done = pre ++ q :: post /\ Forall recoverable_ pre
        /\ outcome_ q = Raised e /\ caught e = false
        /\ collect is_username_available query_pick available_only queries
           = (map query_started queries ++ map settle_event_ (pre ++ [q]), inl e)).
Proof.
  intros done. unfold collect. fold done. unfold emit_all. rewrite bind_inr.
  destruct (first_unrecoverable is_username_available done)
    as [Hall|(pre & q & post & e & Hdone & Hpre & Hq & He)].
  - left. split; [exact Hall|].
    destruct (collect_loop_ok is_username_available available_only done ∅ [] Hall)
      as (results & Hrun & Hkey & Hret).
    exists results. rewrite Hrun. cbn [fst snd app]. split; [reflexivity|]. split.
    + intros u. rewrite Hkey, lookup_empty. reflexivity.
    + rewrite Hret, retained_empty. reflexivity.
  - right. exists pre, q, post, e. repeat split; try assumption.
    rewrite Hdone.
    rewrite (collect_loop_stop is_username_available available_only pre q post e)
      by assumption.
    reflexivity.
Qed.

(** A session ends in one of three ways: the token prefetch raises, an
    awaited query raises an exception that line 72 does not name, or the
    report is printed. *)
Lemma session_body_cases args platforms usernames :
  let coros := numbered platforms in
  let queries := platform_queries platforms usernames in
  let done := as_completed query_pick queries in
  let head := if cache_tokens args
              then prefetch_trace prerequest prerequest_pick platforms else [] in
  let session := session_body prerequest is_username_available
                   prerequest_pick query_pick args platforms usernames in
  (cache_tokens args = true
   /\ exists pre c post e,
       as_completed prerequest_pick coros = pre ++ c :: post
       /\ Forall prerequest_ok pre
       /\ prerequest (fst c) (snd c) = Raised e
       /\ session
          = (Stdout CachingTokens :: map prerequest_started coros
             ++ map (prerequest_event prerequest) (pre ++ [c]), inl e))
  \/ ((cache_tokens args = true -> Forall prerequest_ok coros)
      /\ exists pre q post e,
          done = pre ++ q :: post /\ Forall recoverable_ pre
          /\ outcome_ q = Raised e /\ caught e = false
          /\ session
             = (head ++ map query_started queries ++ map settle_event_ (pre ++ [q]),
                inl e))
  \/ ((cache_tokens args = true -> Forall prerequest_ok coros)
      /\ Forall recoverable_ done
      /\ exists results,
          session
          = (head ++ map query_started queries ++ map settle_event_ done
             ++ flat_map (report_user results) usernames,
             inr (map format_exception (raised_of_ done), length queries))
          /\ (forall u, default [] (results !! u)
                        = filter (fun r => username r = u)
                            (filter (fun r => keeps (available_only args) r = true)
                               (returned_of_ done)))
          /\ retained results
             ≡ₚ filter (fun r => keeps (available_only args) r = true)
                  (returned_of_ done)).
Proof.
  intros coros queries done head session.
  assert (Hrest : forall tr0,
    (let m := bind (tr0, inr tt) (fun _ =>
       st <- collect is_username_available query_pick (available_only args) queries ;;
       emit_all (flat_map (report_user (fst st)) usernames) ;;;
       ret (snd st, length queries)) in
     (exists pre q post e,
        done = pre ++ q :: post /\ Forall recoverable_ pre
        /\ outcome_ q = Raised e /\ caught e = false
        /\ m = (tr0 ++ map query_started queries ++ map settle_event_ (pre ++ [q]),
                inl e))
     \/ (Forall recoverable_ done
         /\ exists results,
           m = (tr0 ++ map query_started queries ++ map settle_event_ done
                ++ flat_map (report_user results) usernames,
                inr (map format_exception (raised_of_ done), length queries))
           /\ (forall u, default [] (results !! u)
                        = filter (fun r => username r = u)
                            (filter (fun r => keeps (available_only args) r = true)
                               (returned_of_ done)))
           /\ retained results
              ≡ₚ filter (fun r => keeps (available_only args) r = true)
                   (returned_of_ done)))).
  { intros tr0 m. subst m. rewrite bind_inr.
    destruct (collect_cases (available_only args) queries)
      as [(Hall & results & Hrun & Hkey & Hret)|(pre & q & post & e & H1 & H2 & H3 & H4 & Hrun)];
      rewrite Hrun.
    - right. split; [exact Hall|]. exists results.
      rewrite bind_inr. unfold emit_all. rewrite bind_inr. cbn [fst snd ret].
      rewrite app_nil_r, <- !app_assoc. repeat split; assumption.
    - left. exists pre, q, post, e. rewrite bind_inl. cbn [fst snd].
      repeat split; assumption. }
  subst session. unfold session_body. fold queries. subst head.
  destruct (cache_tokens args).
  - destruct (gather_prerequests_cases platforms)
      as [(Hok & Hrun)|(pre & c & post & e & H1 & H2 & H3 & Hrun)].
    + right. unfold emit. rewrite bind_inr, Hrun, bind_inr. cbn [fst snd app].
      specialize (Hrest (prefetch_trace prerequest prerequest_pick platforms)).
      cbn zeta in Hrest. unfold prefetch_trace in *. fold coros in Hrest |- *.
      rewrite <- (app_assoc (map prerequest_started coros)).
      destruct Hrest as [Hstop|Hdone]; [left|right]; (split; [intros _; exact Hok|]);
        assumption.
    + left. split; [reflexivity|]. exists pre, c, post, e.
      repeat split; try assumption.
      unfold emit. rewrite bind_inr, Hrun, bind_inl. cbn [fst snd app].
      rewrite bind_inl. reflexivity.
  - right. specialize (Hrest []). cbn zeta in Hrest. cbn [app] in Hrest.
    destruct Hrest as [Hstop|Hdone]; [left|right]; (split; [discriminate|]);
      assumption.
Qed.
End Phases.

(** ** The shape of a run *)

Section Run.
Variable Platforms : list Platform.
Variable read_lines : string -> settled (list string).
Variable prerequest : nat -> Platform -> settled unit.
Variable is_username_available : nat -> Platform -> string -> settled QueryResult.
Variable prerequest_pick : nat -> nat.
Variable query_pick : nat -> nat.

Abbreviation main' :=
  (main Platforms read_lines prerequest is_username_available prerequest_pick query_pick).
Abbreviation session' :=
  (session_body prerequest is_username_available prerequest_pick query_pick).

Lemma main_valid args platforms :
  truthy_str (input_file args) = false ->
  usernames args <> [] ->
  select_platforms Platforms args = ([], inr platforms) ->
  main' args
  = finish (with_session (session' args platforms (Py.dict_fromkeys (usernames args)))).
Proof.
  intros Hfile Hus Hsel. unfold main. rewrite read_usernames_eq, Hfile, bind_ret.
  rewrite bool_decide_eq_false_2 by assumption.
  rewrite bind_ret', Hsel, bind_ret. reflexivity.
Qed.

(** Either the arguments are refused before anything happens, or the
    session runs on the selected platforms and deduplicated usernames. *)
Lemma main_shape args :
  (exists e, main' args = ([], inl e))
  \/ (exists platforms,
        truthy_str (input_file args) = false
        /\ usernames args <> []
        /\ select_platforms Platforms args = ([], inr platforms)
        /\ main' args
           = finish (with_session
                       (session' args platforms (Py.dict_fromkeys (usernames args))))).
Proof.
  unfold main. rewrite read_usernames_eq.
  destruct (truthy_str (input_file args)) eqn:Hfile.
  { left. eexists. reflexivity. }
  rewrite bind_ret.
  case_bool_decide as Hempty.
  { left. eexists. reflexivity. }
  rewrite bind_ret'.
  pose proof (select_platforms_trace Platforms args) as Htr.
  destruct (select_platforms Platforms args) as [tr [e|platforms]]; cbn in Htr; subst tr.
  { left. eexists. reflexivity. }
  right. exists platforms. repeat split; try assumption.
  rewrite bind_ret. reflexivity.
Qed.

Lemma finish_with_session_inl tr e :
  finish (with_session (tr, inl e)) = (SessionOpened :: tr ++ [SessionClosed], inl e).
Proof. reflexivity. Qed.

Lemma finish_with_session_inr tr out :
  finish (with_session (tr, inr out))
  = (SessionOpened :: tr ++ [SessionClosed; Stderr (fst out); Stdout (Summary (snd out))],
     inr tt).
Proof.
  unfold finish, with_session. rewrite bind_inr. cbn.
  rewrite <- app_assoc. reflexivity.
Qed.

Abbreviation prerequest_ok' :=
  (fun c : nat * Platform => prerequest (fst c) (snd c) = Returned tt).

(** The three ways a run can go once the arguments are accepted. *)
Lemma main_cases_valid args platforms :
  truthy_str (input_file args) = false ->
  usernames args <> [] ->
  select_platforms Platforms args = ([], inr platforms) ->
  let coros := numbered platforms in
  let queries := platform_queries platforms (Py.dict_fromkeys (usernames args)) in
  let done := as_completed query_pick queries in
  let head := if cache_tokens args
              then prefetch_trace prerequest prerequest_pick platforms else [] in
  (cache_tokens args = true
   /\ exists pre c post e,
       as_completed prerequest_pick coros = pre ++ c :: post
       /\ Forall prerequest_ok' pre
       /\ prerequest (fst c) (snd c) = Raised e
       /\ main' args
          = (SessionOpened
             :: (Stdout CachingTokens :: map prerequest_started coros
                 ++ map (prerequest_event prerequest) (pre ++ [c]))
             ++ [SessionClosed], inl e))
  \/ ((cache_tokens args = true -> Forall prerequest_ok' coros)
      /\ exists pre q post e,
          done = pre ++ q :: post
          /\ Forall (recoverable is_username_available) pre
          /\ outcome is_username_available q = Raised e /\ caught e = false
          /\ main' args
             = (SessionOpened
                :: (head ++ map query_started queries
                    ++ map (settle_event is_username_available) (pre ++ [q]))
                ++ [SessionClosed], inl e))
  \/ ((cache_tokens args = true -> Forall prerequest_ok' coros)
      /\ Forall (recoverable is_username_available) done
      /\ exists results,
          main' args
          = (SessionOpened
             :: (head ++ map query_started queries
                 ++ map (settle_event is_username_available) done
                 ++ flat_map (report_user results)
                      (Py.dict_fromkeys (usernames args)))
             ++ [SessionClosed;
                 Stderr (map format_exception
                           (raised_of is_username_available done));
                 Stdout (Summary (length queries))],
             inr tt)
          /\ (forall u, default [] (results !! u)
                        = filter (fun r => username r = u)
                            (filter (fun r => keeps (available_only args) r = true)
                               (returned_of is_username_available done)))
          /\ retained results
             ≡ₚ filter (fun r => keeps (available_only args) r = true)
                  (returned_of is_username_available done)).
Proof.
  intros Hfile Hus Hsel coros queries done head.
  rewrite (main_valid args platforms Hfile Hus Hsel).
  destruct (session_body_cases prerequest is_username_available prerequest_pick
              query_pick args platforms (Py.dict_fromkeys (usernames args)))
    as [(Hc & pre & c & post & e & H1 & H2 & H3 & Hrun)
       |[(Hok & pre & q & post & e & H1 & H2 & H3 & H4 & Hrun)
        |(Hok & Hall & results & Hrun & Hkey & Hret)]];
    rewrite Hrun.
  - left. split; [exact Hc|]. exists pre, c, post, e.
    rewrite finish_with_session_inl. repeat split; assumption.
  - right; left. split; [exact Hok|]. exists pre, q, post, e.
    rewrite finish_with_session_inl. repeat split; assumption.
  - right; right. split; [exact Hok|]. split; [exact Hall|]. exists results.
    rewrite finish_with_session_inr. repeat split; assumption.
Qed.

End Run.

(** ** Events of a given kind in a trace *)

Lemma Forall_map_all {X Y} (P : Y -> Prop) (f : X -> Y) l :
  (forall x, P (f x)) -> Forall P (map f l).
Proof. intros H. induction l; constructor; auto. Qed.

Lemma Forall_flat_map_all {X Y} (P : Y -> Prop) (f : X -> list Y) l :
  (forall x, Forall P (f x)) -> Forall P (flat_map f l).
Proof.
  intros H. induction l as [|x l IH]; [constructor|].
  cbn. apply Forall_app. split; [apply H|exact IH].
Qed.

Lemma omap_all_None {X Y} (g : X -> option Y) l :
  Forall (fun x => g x = None) l -> omap g l = [].
Proof.
  induction 1 as [|x l Hx Hl IH]; [reflexivity|].
  cbn. rewrite Hx. exact IH.
Qed.

Lemma omap_map_Some {X Y} (g : Y -> option X) (f : X -> Y) l :
  (forall x, g (f x) = Some x) -> omap g (map f l) = l.
Proof.
  intros H. induction l as [|x l IH]; [reflexivity|].
  cbn. rewrite H. cbn. f_equal. exact IH.
Qed.

Lemma not_elem_of_Forall (f : event -> bool) ev tr :
  Forall (fun x => f x = false) tr -> f ev = true -> ev ∉ tr.
Proof.
  intros Hall Hev Hin. rewrite Forall_forall in Hall.
  specialize (Hall ev Hin). congruence.
Qed.

Lemma report_user_events (f : event -> bool) results u :
  f (Stdout Divider) = false ->
  (forall n v, f (Stdout (Header n v)) = false) ->
  (forall c1 c2 r, f (Stdout (Entry c1 c2 r)) = false) ->
  Forall (fun ev => f ev = false) (report_user results u).
Proof.
  intros Hd Hh He. unfold report_user. apply Forall_app. split.
  - repeat constructor; auto.
  - apply Forall_map_all. intros r. unfold print_response.
    destruct (negb (success r)), (valid r); apply He.
Qed.

(** Proves that no event of a trace built from the pieces of a run is of
    the kind a boolean test recognises. *)
Ltac no_such_event :=
  repeat first
    [ apply Forall_nil_2
    | apply Forall_cons_2; [reflexivity|]
    | apply Forall_app_2
    | apply Forall_map_all; intros ?; reflexivity
    | apply Forall_flat_map_all; intros ?;
      apply report_user_events; [reflexivity|intros; reflexivity|intros; reflexivity]
    | match goal with |- Forall _ (if ?b then _ else _) => destruct b end
    | progress unfold prefetch_trace ].

Lemma prefix_before_first {X} (x : X) pre post l1 : forall l2,
  pre ++ x :: post = l1 ++ l2 -> x ∉ l1 -> exists m, pre = l1 ++ m.
Proof.
  revert pre. induction l1 as [|a l1 IH]; intros pre l2 Heq Hx.
  - exists pre. reflexivity.
  - destruct pre as [|b pre]; cbn in Heq; inversion Heq; subst.
    + exfalso. apply Hx. apply elem_of_cons. left. reflexivity.
    + destruct (IH pre l2 H1) as [m ->].
      * intros Hin. apply Hx. apply elem_of_cons. right. exact Hin.
      * exists m. reflexivity.
Qed.

Section TraceFacts.
Variable prerequest : nat -> Platform -> settled unit.
Variable is_username_available : nat -> Platform -> string -> settled QueryResult.
Variable prerequest_pick : nat -> nat.

Lemma prefetch_no_query (b : bool) platforms :
  Forall (fun ev => is_query_event ev = false)
    (SessionOpened
     :: (if b then prefetch_trace prerequest prerequest_pick platforms else [])).
Proof. no_such_event. Qed.

Lemma failed_prefetch_no_query coros done :
  Forall (fun ev => is_query_event ev = false)
    (SessionOpened
     :: (Stdout CachingTokens :: map prerequest_started coros
         ++ map (prerequest_event prerequest) done) ++ [SessionClosed]).
Proof. no_such_event. Qed.

(** A query event of a run that got past the prefetch comes after all of
    the prefetch. *)
Lemma query_after_prefetch (b : bool) platforms body tail pre ev post :
  is_query_event ev = true ->
  SessionOpened
  :: ((if b then prefetch_trace prerequest prerequest_pick platforms else [])
      ++ body) ++ tail
  = pre ++ ev :: post ->
  exists m,
    pre = (SessionOpened
           :: (if b then prefetch_trace prerequest prerequest_pick platforms else []))
          ++ m.
Proof.
  intros Hev Htr. symmetry in Htr. rewrite <- app_assoc in Htr.
  change (SessionOpened :: ?h ++ ?r) with ((SessionOpened :: h) ++ r) in Htr.
  apply prefix_before_first in Htr; [exact Htr|].
  apply (not_elem_of_Forall is_query_event); [|exact Hev].
  apply prefetch_no_query.
Qed.

Lemma prefetch_trace_settled platforms c :
  c ∈ numbered platforms ->
  prerequest (fst c) (snd c) = Returned tt ->
  PrerequestStarted (fst c) (snd c) ∈ prefetch_trace prerequest prerequest_pick platforms
  /\ PrerequestSettled (fst c) (snd c) (Returned tt)
       ∈ prefetch_trace prerequest prerequest_pick platforms.
Proof.
  intros Hc Hret. unfold prefetch_trace.
  split; apply elem_of_cons; right; apply elem_of_app.
  - left. apply list_elem_of_In, in_map_iff. exists c.
    split; [reflexivity|]. apply list_elem_of_In, Hc.
  - right. apply elem_of_app. left. apply list_elem_of_In, in_map_iff. exists c.
    split; [unfold prerequest_event; rewrite Hret; reflexivity|].
    apply list_elem_of_In. rewrite (as_completed_perm prerequest_pick). exact Hc.
Qed.

Lemma queries_started_app tr1 tr2 :
  queries_started (tr1 ++ tr2) = queries_started tr1 ++ queries_started tr2.
Proof. apply omap_app. Qed.

Lemma queries_started_none tr :
  Forall (fun ev => is_query_started ev = false) tr -> queries_started tr = [].
Proof.
  intros H. apply omap_all_None. eapply Forall_impl; [exact H|].
  intros [] Hev; try reflexivity. discriminate.
Qed.

Lemma queries_started_map qs : queries_started (map query_started qs) = qs.
Proof. apply omap_map_Some. intros [i [p u]]. reflexivity. Qed.

(** The fan-out starts its coroutines after whatever the prefetch did,
    and nothing later starts another. *)
Lemma queries_started_run (b : bool) platforms queries rest tail :
  Forall (fun ev => is_query_started ev = false) rest ->
  Forall (fun ev => is_query_started ev = false) tail ->
  queries_started
    (SessionOpened
     :: ((if b then prefetch_trace prerequest prerequest_pick platforms else [])
         ++ map query_started queries ++ rest) ++ tail)
  = queries.
Proof.
  intros Hrest Htail.
  change (SessionOpened :: ?l ++ tail) with ([SessionOpened] ++ l ++ tail).
  rewrite !queries_started_app, queries_started_map.
  rewrite (queries_started_none rest Hrest), (queries_started_none tail Htail).
  rewrite (queries_started_none [SessionOpened]) by no_such_event.
  rewrite (queries_started_none (if b then _ else _)) by no_such_event.
  cbn. rewrite !app_nil_r. reflexivity.
Qed.

Lemma summaries_none tr :
  Forall (fun ev => is_summary ev = false) tr -> summaries tr = [].
Proof.
  intros H. apply omap_all_None. eapply Forall_impl; [exact H|].
  intros [| | | | | |[]|] Hev; try reflexivity. discriminate.
Qed.

Lemma summaries_snoc tr lines n :
  Forall (fun ev => is_summary ev = false) tr ->
  summaries (tr ++ [SessionClosed; Stderr lines; Stdout (Summary n)]) = [n].
Proof.
  intros H. unfold summaries. rewrite omap_app. fold (summaries tr).
  rewrite (summaries_none tr H). reflexivity.
Qed.

Lemma elem_of_summaries n tr : Stdout (Summary n) ∈ tr -> n ∈ summaries tr.
Proof.
  intros H. apply list_elem_of_omap. exists (Stdout (Summary n)).
  split; [exact H|reflexivity].
Qed.
End TraceFacts.

(** ** Reading the report back *)

Lemma filter_none {X} (P : X -> Prop) `{forall x, Decision (P x)} (l : list X) :
  (forall x, x ∈ l -> ~ P x) -> filter P l = [].
Proof.
  induction l as [|x l IH]; intros Hl; [reflexivity|].
  rewrite filter_cons_False.
  - apply IH. intros y Hy. apply Hl. apply elem_of_cons. right. exact Hy.
  - apply Hl. apply elem_of_cons. left. reflexivity.
Qed.

Lemma parse_report_skip tr rest :
  Forall (fun ev => is_report_item ev = false) tr ->
  parse_report (tr ++ rest) = parse_report rest.
Proof.
  induction 1 as [|ev tr Hev Htr IH]; [reflexivity|].
  cbn [app parse_report]. rewrite IH. destruct (parse_report rest) as [entries blocks].
  destruct ev as [| | | | | |[]|]; try reflexivity; discriminate.
Qed.

Lemma parse_report_entries rs rest :
  parse_report (map (fun response => Stdout (print_response response)) rs ++ rest)
  = (rs ++ fst (parse_report rest), snd (parse_report rest)).
Proof.
  induction rs as [|r rs IH]; cbn [map app parse_report].
  - destruct (parse_report rest). reflexivity.
  - rewrite IH. unfold print_response.
    destruct (negb (success r)), (valid r); reflexivity.
Qed.

Lemma parse_report_user results u rest :
  parse_report (report_user results u ++ rest)
  = ([], (u, sort_responses (default [] (results !! u)) ++ fst (parse_report rest))
         :: snd (parse_report rest)).
Proof.
  unfold report_user. rewrite <- app_assoc. cbn [app parse_report].
  rewrite parse_report_entries. reflexivity.
Qed.

Lemma parse_report_users results us tail :
  Forall (fun ev => is_report_item ev = false) tail ->
  parse_report (flat_map (report_user results) us ++ tail)
  = ([], map (fun u => (u, sort_responses (default [] (results !! u)))) us).
Proof.
  intros Htail. induction us as [|u us IH].
  - cbn [flat_map map app]. rewrite <- (app_nil_r tail).
    rewrite parse_report_skip by exact Htail. reflexivity.
  - cbn [flat_map map]. rewrite <- app_assoc, parse_report_user, IH.
    cbn [fst snd]. rewrite app_nil_r. reflexivity.
Qed.

Lemma report_blocks_run prerequest prerequest_pick is_username_available
    (b : bool) platforms queries done results us lines n :
  report_blocks
    (SessionOpened
     :: ((if b then prefetch_trace prerequest prerequest_pick platforms else [])
         ++ map query_started queries
         ++ map (settle_event is_username_available) done
         ++ flat_map (report_user results) us)
     ++ [SessionClosed; Stderr lines; Stdout (Summary n)])
  = map (fun u => (u, sort_responses (default [] (results !! u)))) us.
Proof.
  unfold report_blocks.
  change (SessionOpened :: ?l ++ ?t) with ([SessionOpened] ++ l ++ t).
  rewrite parse_report_skip by no_such_event.
  rewrite <- !app_assoc.
  rewrite parse_report_skip by no_such_event.
  rewrite parse_report_skip by no_such_event.
  rewrite parse_report_skip by no_such_event.
  rewrite parse_report_users by no_such_event. reflexivity.
Qed.

(** ** The fan-out (lines 63-73) *)

Lemma length_numbered {X} (l : list X) : length (numbered l) = length l.
Proof. unfold numbered. rewrite length_zip, length_seq. lia. Qed.

Lemma numbered_indices {X} (l : list X) : map fst (numbered l) = seq 0 (length l).
Proof.
  unfold numbered. generalize 0. induction l as [|x l IH]; intros n; [reflexivity|].
  cbn. f_equal. apply IH.
Qed.

Lemma length_platform_queries platforms usernames :
  length (platform_queries platforms usernames) = length usernames * length platforms.
Proof.
  unfold platform_queries. rewrite length_numbered.
  induction usernames as [|u us IH]; [reflexivity|].
  cbn [flat_map]. rewrite length_app, length_map, IH. reflexivity.
Qed.

Section FanOut.
Variable is_username_available : nat -> Platform -> string -> settled QueryResult.

Lemma returned_raised_length qs :
  length (returned_of is_username_available qs)
  + length (raised_of is_username_available qs) = length qs.
Proof.
  induction qs as [|q qs IH]; [reflexivity|].
  rewrite returned_of_cons, raised_of_cons.
  destruct (outcome is_username_available q); cbn [length]; lia.
Qed.

Lemma filter_split_length {X} (P : X -> Prop) `{forall x, Decision (P x)} (l : list X) :
  length (filter P l) + length (filter (fun x => ~ P x) l) = length l.
Proof.
  rewrite <- length_app. apply Permutation_length, filter_app_complement.
Qed.

Lemma unrecoverable_not_all q e qs :
  q ∈ qs -> outcome is_username_available q = Raised e -> caught e = false ->
  ~ Forall (recoverable is_username_available) qs.
Proof.
  intros Hin Hq He Hall. rewrite Forall_forall in Hall.
  specialize (Hall q Hin). unfold recoverable in Hall. rewrite Hq in Hall. congruence.
Qed.
End FanOut.

(** ** Properties of whole runs *)

Section Claims.
Variable Platforms : list Platform.
Variable read_lines : string -> settled (list string).
Variable prerequest : nat -> Platform -> settled unit.
Variable is_username_available : nat -> Platform -> string -> settled QueryResult.
Variable prerequest_pick : nat -> nat.
Variable query_pick : nat -> nat.

Abbreviation run :=
  (main Platforms read_lines prerequest is_username_available prerequest_pick query_pick).

Lemma prefetch_failure_excluded platforms pre c post e :
  prefetch_succeeds prerequest platforms ->
  as_completed prerequest_pick (numbered platforms) = pre ++ c :: post ->
  prerequest (fst c) (snd c) = Raised e -> False.
Proof.
  unfold prefetch_succeeds. intros Hok Hdone Hc. rewrite Forall_forall in Hok.
  assert (Hin : c ∈ numbered platforms).
  { rewrite <- (as_completed_perm prerequest_pick), Hdone.
    apply elem_of_app. right. apply elem_of_cons. left. reflexivity. }
  specialize (Hok c Hin). cbn beta in Hok. congruence.
Qed.

(** A run whose arguments are accepted, whose prefetch (if any) succeeds
    and whose availability checks all return or raise what line 72 names
    ends normally. *)
Lemma run_ends_normally args platforms :
  truthy_str (input_file args) = false ->
  usernames args <> [] ->
  select_platforms Platforms args = ([], inr platforms) ->
  (cache_tokens args = true -> prefetch_succeeds prerequest platforms) ->
  Forall (recoverable is_username_available)
    (platform_queries platforms (Py.dict_fromkeys (usernames args))) ->
  snd (run args) = inr tt.
Proof.
  intros Hfile Hus Hsel Hpre Hall.
  destruct (main_cases_valid Platforms read_lines prerequest is_username_available
              prerequest_pick query_pick args platforms Hfile Hus Hsel)
    as [(Hc & pre & c & post & e' & H1 & _ & H3 & _)
       |[(_ & pre & q' & post & e' & H1 & _ & H3 & H4 & _)
        |(_ & _ & results & Hrun & _)]].
  - exfalso. eapply prefetch_failure_excluded; eauto.
  - exfalso.
    apply (unrecoverable_not_all is_username_available q' e'
             (platform_queries platforms (Py.dict_fromkeys (usernames args))));
      [|exact H3|exact H4|exact Hall].
    rewrite <- (as_completed_perm query_pick), H1.
    apply elem_of_app. right. apply elem_of_cons. left. reflexivity.
  - rewrite Hrun. reflexivity.
Qed.

(** C7. At the per-task boundary an exception is recorded exactly when it
    is an [aiohttp.ClientError] or a [KeyError]; any other exception leaves
    the loop body as it is. In a run that reaches the fan-out, if some
    availability check raises another exception, the run ends with an
    exception that line 72 does not name -- the one of the first such check
    to finish -- the session is closed, and neither the recorded messages
    nor the summary are printed. *)
Theorem unexpected_exception_propagates args platforms q e :
  truthy_str (input_file args) = false ->
  usernames args <> [] ->
  select_platforms Platforms args = ([], inr platforms) ->
  (cache_tokens args = true -> prefetch_succeeds prerequest platforms) ->
  let queries := platform_queries platforms (Py.dict_fromkeys (usernames args)) in
  q ∈ queries ->
  outcome is_username_available q = Raised e ->
  caught e = false ->
  (forall e0, caught e0 = true <-> exn_cls e0 = ClientError \/ exn_cls e0 = KeyError)
  /\ (forall results exceptions q0 e0,
        outcome is_username_available q0 = Raised e0 ->
        snd (collect_body is_username_available (available_only args)
               (results, exceptions) q0)
        = if caught e0 then inr (results, exceptions ++ [format_exception e0])
          else inl e0)
  /\ exists pre q' post e',
       as_completed query_pick queries = pre ++ q' :: post
       /\ Forall (recoverable is_username_available) pre
       /\ outcome is_username_available q' = Raised e'
       /\ caught e' = false
       /\ snd (run args) = inl e'
       /\ last (fst (run args)) = Some SessionClosed
       /\ Forall (fun ev => is_report_end ev = false) (fst (run args)).
Proof.
  intros Hfile Hus Hsel Hpre queries Hq Hout He.
  split.
  { intros e0. unfold caught.
    destruct (exn_cls e0); split; intros H; try reflexivity; try discriminate;
      try (left; reflexivity); try (right; reflexivity);
      destruct H; discriminate. }
  split.
  { intros results exceptions q0 e0 Hq0. rewrite collect_body_eq, Hq0.
    destruct (caught e0); reflexivity. }
  destruct (main_cases_valid Platforms read_lines prerequest is_username_available
              prerequest_pick query_pick args platforms Hfile Hus Hsel)
    as [(Hc & pre & c & post & e' & H1 & _ & H3 & _)
       |[(_ & pre & q' & post & e' & H1 & H2 & H3 & H4 & Hrun)
        |(_ & Hall & _)]].
  - exfalso. eapply prefetch_failure_excluded; eauto.
  - exists pre, q', post, e'. rewrite Hrun. cbn [fst snd].
    repeat (split; [assumption|]). split; [reflexivity|]. split.
    + change (SessionOpened :: ?l ++ [SessionClosed])
        with ((SessionOpened :: l) ++ [SessionClosed]).
      apply last_snoc.
    + no_such_event.
  - exfalso.
    apply (unrecoverable_not_all is_username_available q e
             (as_completed query_pick queries)); [|exact Hout|exact He|exact Hall].
    rewrite (as_completed_perm query_pick). exact Hq.
Qed.



(** C8. With token caching enabled, whenever an availability check is
    started in a run, the prefetch coroutine of every selected platform has
    been started and has settled before -- each of them successfully, since
    a prefetch that raises ends the run before the fan-out. *)
Theorem prefetch_barrier args pre i p u post :
  cache_tokens args = true ->
  fst (run args) = pre ++ QueryStarted i p u :: post ->
  exists platforms,
    select_platforms Platforms args = ([], inr platforms)
    /\ forall c, c ∈ numbered platforms ->
         PrerequestStarted (fst c) (snd c) ∈ pre
         /\ PrerequestSettled (fst c) (snd c) (Returned tt) ∈ pre.
Proof.
  intros Hcache Htr.
  destruct (main_shape Platforms read_lines prerequest is_username_available
              prerequest_pick query_pick args)
    as [[e Hrun]|(platforms & Hfile & Hus & Hsel & _)].
  { rewrite Hrun in Htr. cbn in Htr. destruct pre; discriminate. }
  exists platforms. split; [exact Hsel|].
  assert (Hstarted : QueryStarted i p u ∈ fst (run args)).
  { rewrite Htr. apply elem_of_app. right. apply elem_of_cons. left. reflexivity. }
  destruct (main_cases_valid Platforms read_lines prerequest is_username_available
              prerequest_pick query_pick args platforms Hfile Hus Hsel)
    as [(_ & pre' & c' & post' & e' & _ & _ & _ & Hrun)
       |[(Hok & pre' & q' & post' & e' & _ & _ & _ & _ & Hrun)
        |(Hok & _ & results & Hrun & _)]];
    rewrite Hrun in Htr, Hstarted; cbn [fst] in Htr, Hstarted.
  - exfalso. revert Hstarted. apply (not_elem_of_Forall is_query_event); [|reflexivity].
    apply failed_prefetch_no_query.
  - apply query_after_prefetch in Htr; [|reflexivity]. destruct Htr as [m ->].
    rewrite Hcache. specialize (Hok Hcache). rewrite Forall_forall in Hok.
    intros c Hc.
    destruct (prefetch_trace_settled prerequest prerequest_pick platforms c Hc (Hok c Hc))
      as [H1 H2].
    split; apply elem_of_app; left; apply elem_of_cons; right; assumption.
  - apply query_after_prefetch in Htr; [|reflexivity]. destruct Htr as [m ->].
    rewrite Hcache. specialize (Hok Hcache). rewrite Forall_forall in Hok.
    intros c Hc.
    destruct (prefetch_trace_settled prerequest prerequest_pick platforms c Hc (Hok c Hc))
      as [H1 H2].
    split; apply elem_of_app; left; apply elem_of_cons; right; assumption.
Qed.

(** C6, as the code has it. With token caching enabled the prefetch
    coroutines of all selected platforms are started together. When all of
    them return, every one is awaited and the availability checks are
    started. When one of them raises, the first exception to occur ends the
    run: the prefetches that have not finished by then are not awaited, the
    session is closed, and no availability check is started. *)
Theorem prefetch_failure_ends_run args platforms :
  truthy_str (input_file args) = false ->
  usernames args <> [] ->
  select_platforms Platforms args = ([], inr platforms) ->
  cache_tokens args = true ->
  let coros := numbered platforms in
  let queries := platform_queries platforms (Py.dict_fromkeys (usernames args)) in
  (prefetch_succeeds prerequest platforms ->
   prefetch_failure_isolated (fst (run args)) coros queries)
  /\ (forall c e,
        c ∈ coros -> prerequest (fst c) (snd c) = Raised e ->
        exists pre c' post e',
          as_completed prerequest_pick coros = pre ++ c' :: post
          /\ Forall (fun c => prerequest (fst c) (snd c) = Returned tt) pre
          /\ prerequest (fst c') (snd c') = Raised e'
          /\ run args
             = (SessionOpened
                :: (Stdout CachingTokens :: map prerequest_started coros
                    ++ map (prerequest_event prerequest) (pre ++ [c']))
                ++ [SessionClosed], inl e')
          /\ queries_started (fst (run args)) = []).
Proof.
  intros Hfile Hus Hsel Hcache coros queries.
  pose proof (main_cases_valid Platforms read_lines prerequest is_username_available
                prerequest_pick query_pick args platforms Hfile Hus Hsel) as Hcases.
  cbn zeta in Hcases. fold coros queries in Hcases. split.
  - intros Hok. pose proof Hok as Hok'. unfold prefetch_succeeds in Hok.
    destruct Hcases
      as [(_ & pre & c & post & e & H1 & _ & H3 & _)
         |[(_ & pre & q & post & e & _ & _ & _ & _ & Hrun)
          |(_ & _ & results & Hrun & _)]].
    + exfalso. eapply prefetch_failure_excluded; eauto.
    + rewrite Hrun, Hcache. cbn [fst]. split.
      * intros c Hc. exists (Returned tt). rewrite Forall_forall in Hok.
        apply elem_of_cons. right. apply elem_of_app. left. apply elem_of_app. left.
        apply (prefetch_trace_settled prerequest prerequest_pick platforms c Hc (Hok c Hc)).
      * apply (queries_started_run prerequest prerequest_pick true); no_such_event.
    + rewrite Hrun, Hcache. cbn [fst]. split.
      * intros c Hc. exists (Returned tt). rewrite Forall_forall in Hok.
        apply elem_of_cons. right. apply elem_of_app. left. apply elem_of_app. left.
        apply (prefetch_trace_settled prerequest prerequest_pick platforms c Hc (Hok c Hc)).
      * apply (queries_started_run prerequest prerequest_pick true); no_such_event.
  - intros c e Hc He.
    destruct Hcases
      as [(_ & pre & c' & post & e' & H1 & H2 & H3 & Hrun)
         |[(Hok & _)|(Hok & _)]].
    + exists pre, c', post, e'. repeat (split; [assumption|]).
      rewrite Hrun. cbn [fst]. apply queries_started_none. no_such_event.
    + exfalso. specialize (Hok Hcache). rewrite Forall_forall in Hok.
      specialize (Hok c Hc). cbn beta in Hok. congruence.
    + exfalso. specialize (Hok Hcache). rewrite Forall_forall in Hok.
      specialize (Hok c Hc). cbn beta in Hok. congruence.
Qed.

Lemma select_platforms_restrict args args' :
  restrict args' = restrict args ->
  select_platforms Platforms args' = select_platforms Platforms args.
Proof. unfold select_platforms. intros ->. reflexivity. Qed.

Lemma summary_of_run read_lines' prerequest' is_username_available'
    prerequest_pick' query_pick' args n :
  Stdout (Summary n)
    ∈ fst (main Platforms read_lines' prerequest' is_username_available'
             prerequest_pick' query_pick' args) ->
  exists platforms,
    select_platforms Platforms args = ([], inr platforms)
    /\ n = length (Py.dict_fromkeys (usernames args)) * length platforms
    /\ n = length (queries_started
                     (fst (main Platforms read_lines' prerequest' is_username_available'
                             prerequest_pick' query_pick' args)))
    /\ snd (main Platforms read_lines' prerequest' is_username_available'
              prerequest_pick' query_pick' args) = inr tt.
Proof.
  intros Hn.
  destruct (main_shape Platforms read_lines' prerequest' is_username_available'
              prerequest_pick' query_pick' args)
    as [[e Hrun]|(platforms & Hfile & Hus & Hsel & _)].
  { rewrite Hrun in Hn. apply elem_of_nil in Hn. contradiction. }
  exists platforms. split; [exact Hsel|].
  destruct (main_cases_valid Platforms read_lines' prerequest' is_username_available'
              prerequest_pick' query_pick' args platforms Hfile Hus Hsel)
    as [(_ & pre & c & post & e & _ & _ & _ & Hrun)
       |[(_ & pre & q & post & e & _ & _ & _ & _ & Hrun)
        |(_ & _ & results & Hrun & _)]];
    rewrite Hrun in *; cbn [fst snd] in *.
  - exfalso. revert Hn. apply (not_elem_of_Forall is_summary); [|reflexivity].
    no_such_event.
  - exfalso. revert Hn. apply (not_elem_of_Forall is_summary); [|reflexivity].
    no_such_event.
  - apply elem_of_summaries in Hn.
    change (SessionOpened :: ?l ++ ?t) with ((SessionOpened :: l) ++ t) in Hn.
    rewrite summaries_snoc in Hn by no_such_event.
    apply list_elem_of_singleton in Hn. subst n.
    split; [apply length_platform_queries|]. split; [|reflexivity].
    f_equal. symmetry. apply queries_started_run; no_such_event.
Qed.

(** C10. The number in the summary line is the number of coroutines the
    fan-out started, |deduplicated usernames| * |selected platforms|; the
    line is the last thing a run that ends normally prints, and a run ends
    normally when its arguments are accepted, its prefetch succeeds and its
    availability checks all return or raise what line 72 names; the number
    is the same for any two runs on the same usernames and the same
    restriction, whatever [--available-only] and [--cache-tokens] are and
    however the availability checks settle. *)
Theorem summary_counts_queries args :
  (forall n, Stdout (Summary n) ∈ fst (run args) ->
     exists platforms,
       select_platforms Platforms args = ([], inr platforms)
       /\ n = length (Py.dict_fromkeys (usernames args)) * length platforms
       /\ n = length (queries_started (fst (run args)))
       /\ snd (run args) = inr tt)
  /\ (snd (run args) = inr tt ->
      exists n, last (fst (run args)) = Some (Stdout (Summary n)))
  /\ (forall platforms,
        truthy_str (input_file args) = false ->
        usernames args <> [] ->
        select_platforms Platforms args = ([], inr platforms) ->
        (cache_tokens args = true -> prefetch_succeeds prerequest platforms) ->
        Forall (recoverable is_username_available)
          (platform_queries platforms (Py.dict_fromkeys (usernames args))) ->
        snd (run args) = inr tt)
  /\ (forall read_lines' prerequest' is_username_available' prerequest_pick'
             query_pick' args' n n',
        usernames args' = usernames args -> restrict args' = restrict args ->
        Stdout (Summary n) ∈ fst (run args) ->
        Stdout (Summary n')
          ∈ fst (main Platforms read_lines' prerequest' is_username_available'
                   prerequest_pick' query_pick' args') ->
        n = n').
Proof.
  split; [intros n; apply summary_of_run|]. split.
  - intros Hend.
    destruct (main_shape Platforms read_lines prerequest is_username_available
                prerequest_pick query_pick args)
      as [[e Hrun]|(platforms & Hfile & Hus & Hsel & _)].
    { rewrite Hrun in Hend. discriminate. }
    destruct (main_cases_valid Platforms read_lines prerequest is_username_available
                prerequest_pick query_pick args platforms Hfile Hus Hsel)
      as [(_ & pre & c & post & e & _ & _ & _ & Hrun)
         |[(_ & pre & q & post & e & _ & _ & _ & _ & Hrun)
          |(_ & _ & results & Hrun & _)]];
      rewrite Hrun in *; cbn [fst snd] in *; try discriminate.
    eexists.
    change (SessionOpened :: ?l ++ [?a; ?b; ?c]) with ((SessionOpened :: l) ++ [a; b] ++ [c]).
    rewrite !app_assoc. apply last_snoc.
  - split; [intros platforms; apply run_ends_normally|].
    intros read_lines' prerequest' iua' ppick' qpick' args' n n' Hu Hr Hn Hn'.
    apply summary_of_run in Hn, Hn'.
    destruct Hn as (platforms & Hsel & -> & _), Hn' as (platforms' & Hsel' & -> & _).
    rewrite (select_platforms_restrict args args' Hr), Hsel in Hsel'.
    inversion Hsel'. rewrite Hu. reflexivity.
Qed.

(** C3. A run whose arguments are accepted, whose prefetch succeeds and
    whose availability checks all return or raise what line 72 names ends
    normally; and in a run that ends normally, the report has one block for
    each deduplicated username, in the order of the usernames, holding the
    sorted responses retained for it; a username with no retained response
    has an empty block. A response is retained when [--available-only] is
    unset or the response is valid, so with the flag every response of the
    report has [valid = True]. *)
Theorem available_only_report args :
  (forall platforms,
     truthy_str (input_file args) = false ->
     usernames args <> [] ->
     select_platforms Platforms args = ([], inr platforms) ->
     (cache_tokens args = true -> prefetch_succeeds prerequest platforms) ->
     Forall (recoverable is_username_available)
       (platform_queries platforms (Py.dict_fromkeys (usernames args))) ->
     snd (run args) = inr tt)
  /\ (snd (run args) = inr tt ->
      exists platforms done,
        select_platforms Platforms args = ([], inr platforms)
        /\ done ≡ₚ platform_queries platforms (Py.dict_fromkeys (usernames args))
        /\ report_blocks (fst (run args))
           = map (fun u =>
                    (u, sort_responses
                          (filter (fun r => username r = u)
                             (filter (fun r => keeps (available_only args) r = true)
                                (returned_of is_username_available done)))))
               (Py.dict_fromkeys (usernames args))
        /\ map fst (report_blocks (fst (run args))) = Py.dict_fromkeys (usernames args)
        /\ (forall r, keeps true r = valid r)
        /\ (forall r, keeps false r = true)
        /\ (available_only args = true ->
            forall u rs, (u, rs) ∈ report_blocks (fst (run args)) ->
                         Forall (fun r => valid r = true) rs)
        /\ (forall u, u ∈ Py.dict_fromkeys (usernames args) ->
              (forall r, r ∈ returned_of is_username_available done ->
                         username r = u -> keeps (available_only args) r = false) ->
              (u, []) ∈ report_blocks (fst (run args)))).
Proof.
  split; [intros platforms; apply run_ends_normally|].
  intros Hend.
  destruct (main_shape Platforms read_lines prerequest is_username_available
              prerequest_pick query_pick args)
    as [[e Hrun]|(platforms & Hfile & Hus & Hsel & _)].
  { rewrite Hrun in Hend. discriminate. }
  destruct (main_cases_valid Platforms read_lines prerequest is_username_available
              prerequest_pick query_pick args platforms Hfile Hus Hsel)
    as [(_ & pre & c & post & e & _ & _ & _ & Hrun)
       |[(_ & pre & q & post & e & _ & _ & _ & _ & Hrun)
        |(_ & _ & results & Hrun & Hkey & _)]];
    rewrite Hrun in *; cbn [fst snd] in *; try discriminate.
  set (us := Py.dict_fromkeys (usernames args)) in *.
  set (queries := platform_queries platforms us) in *.
  set (done := as_completed query_pick queries) in *.
  assert (Hblocks :
    report_blocks
      (SessionOpened
       :: ((if cache_tokens args
            then prefetch_trace prerequest prerequest_pick platforms else [])
           ++ map query_started queries
           ++ map (settle_event is_username_available) done
           ++ flat_map (report_user results) us)
       ++ [SessionClosed;
           Stderr (map format_exception (raised_of is_username_available done));
           Stdout (Summary (length queries))])
    = map (fun u =>
             (u, sort_responses
                   (filter (fun r => username r = u)
                      (filter (fun r => keeps (available_only args) r = true)
                         (returned_of is_username_available done))))) us).
  { rewrite report_blocks_run. apply map_ext. intros u. rewrite Hkey. reflexivity. }
  exists platforms, done.
  split; [exact Hsel|]. split; [apply as_completed_perm|].
  rewrite Hblocks. split; [reflexivity|].
  split; [rewrite map_map; apply map_id|].
  split; [intros r; unfold keeps; cbn; apply orb_false_r|].
  split; [intros r; reflexivity|]. split.
  - intros Hflag u rs Hin. rewrite Hflag in Hin.
    apply list_elem_of_In, in_map_iff in Hin. destruct Hin as (u' & Heq & _).
    inversion Heq; subst u' rs. apply Forall_forall. intros r Hr.
    rewrite sort_responses_perm in Hr.
    apply list_elem_of_filter in Hr. destruct Hr as [_ Hr].
    apply list_elem_of_filter in Hr. destruct Hr as [Hr _].
    unfold keeps in Hr. cbn in Hr. rewrite orb_false_r in Hr. exact Hr.
  - intros u Hu Hnone. apply list_elem_of_In, in_map_iff. exists u.
    split; [|apply list_elem_of_In, Hu]. f_equal.
    replace (filter (fun r => username r = u)
               (filter (fun r => keeps (available_only args) r = true)
                  (returned_of is_username_available done))) with (@nil QueryResult);
      [reflexivity|].
    symmetry. apply filter_none. intros r Hr Hname.
    apply list_elem_of_filter in Hr. destruct Hr as [Hkeep Hr].
    rewrite (Hnone r Hr Hname) in Hkeep. discriminate.
Qed.
End Claims.

(** ** The input file (lines 41-44) *)

Lemma input_file_attribute_error Platforms read_lines prerequest is_username_available
    prerequest_pick query_pick args :
  truthy_str (input_file args) = true ->
  main Platforms read_lines prerequest is_username_available prerequest_pick query_pick args
  = ([], inl (attribute_error "input")).
Proof.
  intros Hfile. unfold main. rewrite read_usernames_eq, Hfile. reflexivity.
Qed.

(** C9. Line 42 reads [args.input], an attribute the parser never sets
    (the option is stored as [args.input_file]): with a readable file
    names.txt holding the line bob, [main] ends in [AttributeError] before
    the file is opened, and neither alice nor bob is queried. *)
Theorem input_file_is_never_read :
  Sample.one_file "names.txt" = Returned ["bob" +:+ String Py.newline ""]
  /\ map Py.strip_newline ["bob" +:+ String Py.newline ""] = ["bob"]
  /\ Sample.run_with_file Sample.args_input_file = ([], inl (attribute_error "input")).
Proof. repeat split; reflexivity. Qed.

(** ** Sample runs *)

Example upper_github : Py.upper "GitHub" = "GITHUB".
Proof. reflexivity. Qed.

Example capitalize_github : Py.capitalize "GITHUB" = "Github".
Proof. reflexivity. Qed.

Example fromkeys_order :
  Py.dict_fromkeys ["bob"; "alice"; "bob"; "carol"; "alice"] = ["bob"; "alice"; "carol"].
Proof. reflexivity. Qed.

Example sort_descending_is_stable :
  Py.list_sort Nat.ltb (fun x : nat * nat => fst x) true [(1,0); (2,0); (1,1); (2,1)]
  = [(2,0); (2,1); (1,0); (1,1)].
Proof. reflexivity. Qed.

Example as_completed_rotates :
  as_completed (fun k => 1) [10; 20; 30] = [20; 30; 10].
Proof. reflexivity. Qed.

Example sort_responses_sample :
  sort_responses [SortSample.taken; SortSample.errored; SortSample.free]
  = [SortSample.free; SortSample.errored; SortSample.taken].
Proof. reflexivity. Qed.

Example sample_report :
  report_blocks (fst (Sample.run Sample.args))
  = [("alice",
      [{| username := "alice"; platform := Sample.SNAPCHAT; valid := true;
          success := true; message := "Available" |};
       {| username := "alice"; platform := Sample.GITHUB; valid := false;
          success := true; message := "Username is already taken" |}]);
     ("bob",
      [{| username := "bob"; platform := Sample.SNAPCHAT; valid := true;
          success := true; message := "Available" |};
       {| username := "bob"; platform := Sample.GITHUB; valid := false;
          success := true; message := "Username is already taken" |}])]
  /\ summaries (fst (Sample.run Sample.args)) = [6]
  /\ snd (Sample.run Sample.args) = inr tt.
Proof. repeat split; vm_compute; reflexivity. Qed.

Example sample_unknown_platform :
  Sample.run Sample.args_unknown_platform
  = ([], inl (value_error "myspace is not a valid platform")).
Proof. vm_compute. reflexivity. Qed.

(** Counterexample to C6 as worded: Tumblr's prefetch raises, the run ends
    with that exception, Snapchat's prefetch is never awaited and no
    availability check is started. *)
Lemma prefetch_failure_not_isolated :
  Sample.prerequest_tumblr_down 1 Sample.TUMBLR
  = Raised {| exn_cls := ClientError; exn_name := "ClientConnectorError";
              exn_text := "Cannot connect to host" |}
  /\ snd (Sample.run_tumblr_down Sample.args)
     = inl {| exn_cls := ClientError; exn_name := "ClientConnectorError";
              exn_text := "Cannot connect to host" |}
  /\ queries_started (fst (Sample.run_tumblr_down Sample.args)) = []
  /\ ~ prefetch_failure_isolated (fst (Sample.run_tumblr_down Sample.args))
         (numbered [Sample.GITHUB; Sample.TUMBLR; Sample.SNAPCHAT])
         (platform_queries [Sample.GITHUB; Sample.TUMBLR; Sample.SNAPCHAT]
            ["alice"; "bob"]).
Proof.
  split; [reflexivity|]. split; [vm_compute; reflexivity|].
  split; [vm_compute; reflexivity|].
  intros [_ H]. vm_compute in H. discriminate.
Qed.

(** ** The theorems at work on the sample runs *)


Lemma unexpected_exception_propagates_witness :
  exists e', snd (Sample.run_slow Sample.args) = inl e' /\ caught e' = false.
Proof.
  destruct (unexpected_exception_propagates Sample.Platforms Sample.no_files
              Sample.prerequest_ok Sample.is_username_available_slow
              Sample.in_order Sample.interleaved Sample.args
              [Sample.GITHUB; Sample.TUMBLR; Sample.SNAPCHAT]
              (2, (Sample.SNAPCHAT, "alice")) Sample.timed_out)
    as (_ & _ & pre & q' & post & e' & _ & _ & _ & He' & Hrun & _).
  - reflexivity.
  - discriminate.
  - reflexivity.
  - intros _. vm_compute. repeat constructor.
  - vm_compute. repeat constructor.
  - reflexivity.
  - reflexivity.
  - exists e'. split; [exact Hrun|exact He'].
Defined.


Lemma prefetch_failure_ends_run_witness :
  queries_started (fst (Sample.run_tumblr_down Sample.args)) = [].
Proof.
  destruct (prefetch_failure_ends_run Sample.Platforms Sample.no_files
              Sample.prerequest_tumblr_down Sample.is_username_available
              Sample.in_order Sample.interleaved Sample.args
              [Sample.GITHUB; Sample.TUMBLR; Sample.SNAPCHAT])
    as [_ Hfail].
  - reflexivity.
  - discriminate.
  - reflexivity.
  - reflexivity.
  - destruct (Hfail (1, Sample.TUMBLR)
                {| exn_cls := ClientError; exn_name := "ClientConnectorError";
                   exn_text := "Cannot connect to host" |})
      as (pre & c' & post & e' & _ & _ & _ & _ & Hnone).
    + apply elem_of_cons. right. apply elem_of_cons. left. reflexivity.
    + reflexivity.
    + exact Hnone.
Defined.

Lemma prefetch_barrier_witness :
  cache_tokens Sample.args = true
  /\ fst (Sample.run Sample.args)
     = take 9 (fst (Sample.run Sample.args))
       ++ QueryStarted 0 Sample.GITHUB "alice" :: drop 10 (fst (Sample.run Sample.args))
  /\ PrerequestSettled 2 Sample.SNAPCHAT (Returned tt)
       ∈ take 9 (fst (Sample.run Sample.args)).
Proof.
  assert (Htr : fst (Sample.run Sample.args)
                = take 9 (fst (Sample.run Sample.args))
                  ++ QueryStarted 0 Sample.GITHUB "alice"
                     :: drop 10 (fst (Sample.run Sample.args))).
  { vm_compute. reflexivity. }
  split; [reflexivity|]. split; [exact Htr|].
  destruct (prefetch_barrier Sample.Platforms Sample.no_files Sample.prerequest_ok
              Sample.is_username_available Sample.in_order Sample.interleaved
              Sample.args _ _ _ _ _ eq_refl Htr)
    as (platforms & Hsel & Hall).
  assert (Hp : platforms = [Sample.GITHUB; Sample.TUMBLR; Sample.SNAPCHAT]).
  { vm_compute in Hsel. inversion Hsel. reflexivity. }
  subst platforms.
  apply (Hall (2, Sample.SNAPCHAT)).
  apply elem_of_cons. right. apply elem_of_cons. right.
  apply elem_of_cons. left. reflexivity.
Defined.

Lemma available_only_report_witness :
  snd (Sample.run Sample.args_available_only) = inr tt
  /\ map fst (report_blocks (fst (Sample.run Sample.args_available_only)))
     = ["alice"; "bob"].
Proof.
  assert (H : snd (Sample.run Sample.args_available_only) = inr tt).
  { vm_compute. reflexivity. }
  split; [exact H|].
  destruct (available_only_report Sample.Platforms Sample.no_files Sample.prerequest_ok
              Sample.is_username_available Sample.in_order Sample.interleaved
              Sample.args_available_only) as [_ Hreport].
  destruct (Hreport H) as (platforms & done & _ & _ & _ & Hheaders & _).
  exact Hheaders.
Defined.

Lemma sort_responses_law_witness :
  three_group_law (sort_responses [SortSample.taken; SortSample.free])
  /\ StronglySorted (presentation_le Py.upper)
       (sort_responses [SortSample.taken; SortSample.free]).
Proof.
  destruct (sort_responses_law [SortSample.taken; SortSample.free])
    as (_ & _ & Hupper & Hlaw & _).
  split.
  - apply Hlaw. repeat (constructor; try (intros _; reflexivity)).
  - apply Hupper. repeat (constructor; try reflexivity).
Defined.

Lemma summary_counts_queries_witness :
  Stdout (Summary 6) ∈ fst (Sample.run Sample.args)
  /\ 6 = length (Py.dict_fromkeys (usernames Sample.args)) * 3.
Proof.
  assert (H : Stdout (Summary 6) ∈ fst (Sample.run Sample.args)).
  { apply list_elem_of_In. vm_compute. tauto. }
  split; [exact H|].
  destruct (summary_counts_queries Sample.Platforms Sample.no_files Sample.prerequest_ok
              Sample.is_username_available Sample.in_order Sample.interleaved
              Sample.args) as [Hcount _].
  destruct (Hcount 6 H) as (platforms & Hsel & Hn & _).
  assert (Hp : platforms = [Sample.GITHUB; Sample.TUMBLR; Sample.SNAPCHAT]).
  { vm_compute in Hsel. inversion Hsel. reflexivity. }
  subst platforms. exact Hn.
Defined.

(** * Further properties of the driver *)

(** ** Argument handling (lines 40-56) *)

Lemma select_loop_inv Platforms l : forall acc ps,
  for_each l (select_body Platforms) acc = ([], inr ps) ->
  exists ps', ps = acc ++ ps'
    /\ map name ps' = map Py.upper l
    /\ Forall (fun p => p ∈ Platforms) ps'.
Proof.
  induction l as [|s l IH]; intros acc ps Hrun.
  - cbn in Hrun. inversion Hrun. exists []. rewrite app_nil_r.
    repeat split. constructor.
  - rewrite for_each_cons in Hrun. unfold select_body at 1 in Hrun.
    destruct (members_lookup Platforms (Py.upper s)) as [q|] eqn:Hq.
    + rewrite bind_ret' in Hrun. destruct (IH _ _ Hrun) as (ps' & -> & Hnames & Hin).
      apply members_lookup_Some in Hq. destruct Hq as [Hq Hname].
      exists (q :: ps'). rewrite <- app_assoc. split; [reflexivity|]. split.
      * cbn [map]. rewrite Hname, Hnames. reflexivity.
      * constructor; assumption.
    + cbn in Hrun. discriminate.
Qed.

Lemma select_loop_first_unknown Platforms pre s post : forall acc,
  Forall (fun n => is_Some (members_lookup Platforms (Py.upper n))) pre ->
  members_lookup Platforms (Py.upper s) = None ->
  for_each (pre ++ s :: post) (select_body Platforms) acc
  = ([], inl (value_error (s +:+ " is not a valid platform"))).
Proof.
  induction pre as [|n pre IH]; intros acc Hpre Hs.
  - cbn [app]. rewrite for_each_cons. unfold select_body at 1. rewrite Hs. reflexivity.
  - apply Forall_cons in Hpre. destruct Hpre as [[q Hq] Hpre].
    cbn [app]. rewrite for_each_cons. unfold select_body at 1. rewrite Hq.
    rewrite bind_ret'. apply IH; assumption.
Qed.

Lemma ascii_upper_idempotent c : Py.ascii_upper (Py.ascii_upper c) = Py.ascii_upper c.
Proof. destruct c as [[] [] [] [] [] [] [] []]; reflexivity. Qed.

Lemma upper_capitalize s : Py.upper (Py.capitalize s) = Py.upper s.
Proof.
  destruct s as [|c s]; [reflexivity|].
  cbn [Py.capitalize]. unfold Py.upper. cbn [Py.str_map].
  rewrite ascii_upper_idempotent. f_equal. apply upper_lower.
Qed.

Lemma first_occurrences_NoDup_id l : NoDup l -> first_occurrences l = l.
Proof.
  induction 1 as [|x l Hx Hl IH]; [reflexivity|].
  cbn [first_occurrences]. rewrite IH. f_equal.
  clear IH Hl. induction l as [|y l IH]; [reflexivity|].
  rewrite filter_cons_True.
  - f_equal. apply IH. intros Hin. apply Hx. apply elem_of_cons. right. exact Hin.
  - intros ->. apply Hx. apply elem_of_cons. left. reflexivity.
Qed.

Lemma first_occurrences_length l : length (first_occurrences l) <= length l.
Proof.
  induction l as [|x l IH]; [reflexivity|].
  cbn [first_occurrences length].
  pose proof (length_filter (fun y => y <> x) (first_occurrences l)). lia.
Qed.

Section Arguments.
Variable Platforms : list Platform.
Variable read_lines : string -> settled (list string).
Variable prerequest : nat -> Platform -> settled unit.
Variable is_username_available : nat -> Platform -> string -> settled QueryResult.
Variable prerequest_pick : nat -> nat.
Variable query_pick : nat -> nat.

Abbreviation run_ :=
  (main Platforms read_lines prerequest is_username_available prerequest_pick query_pick).

(** X1. Without a username (and without an input file) the run ends at line
    46 with the [ValueError] asking for one, before anything happens and
    before the platform names are looked at: an unknown platform in the
    restriction list is not reported in this case. *)
Theorem no_username_is_refused_first args :
  usernames args = [] ->
  truthy_str (input_file args) = false ->
  run_ args
  = ([], inl (value_error "you must specify either a username or an input file")).
Proof.
  intros Hus Hfile. unfold main. rewrite read_usernames_eq, Hfile, bind_ret.
  rewrite bool_decide_eq_true_2 by exact Hus. reflexivity.
Qed.

(** X2. Without [--restrict], or with an empty restriction list, all
    platforms are selected in the order of the enumeration. With a non-empty
    list of ASCII names, a selection that succeeds holds one registered
    platform per name of the list, in the order of the list and named by the
    upper-cased name: repeated names are not merged, so the same platform is
    then queried once per occurrence. *)
Theorem restrict_selects_in_order args :
  (truthy_list (restrict args) = false ->
   select_platforms Platforms args = ([], inr Platforms))
  /\ (forall l platforms,
        restrict args = Some l -> l <> [] ->
        Forall (fun s => Py.isascii s = true) l ->
        select_platforms Platforms args = ([], inr platforms) ->
        map name platforms = map Py.upper l
        /\ length platforms = length l
        /\ Forall (fun p => p ∈ Platforms) platforms
        /\ forall usernames,
             length (platform_queries platforms usernames)
             = length usernames * length l).
Proof.
  split.
  - intros Hr. unfold select_platforms. rewrite Hr. reflexivity.
  - intros l platforms Hl Hne _ Hsel. unfold select_platforms in Hsel. rewrite Hl in Hsel.
    destruct l as [|s l]; [contradiction|].
    cbn [truthy_list default from_option id] in Hsel.
    destruct (select_loop_inv Platforms (s :: l) [] platforms Hsel)
      as (ps' & -> & Hnames & Hin).
    cbn [app]. assert (Hlen : length ps' = length (s :: l)).
    { rewrite <- (length_map name), Hnames, length_map. reflexivity. }
    repeat split; try assumption.
    intros us. rewrite length_platform_queries, Hlen. reflexivity.
Qed.

(** X3. The names of the restriction list are checked from left to right:
    for names given in ASCII, the run ends, before anything happens, with
    the [ValueError] that names the first name no platform answers to,
    spelled as it was given. The names after it are not looked at. *)
Theorem first_unknown_platform_is_reported args pre s post :
  truthy_str (input_file args) = false ->
  usernames args <> [] ->
  restrict args = Some (pre ++ s :: post) ->
  Forall (fun n => Py.isascii n = true) pre ->
  Py.isascii s = true ->
  Forall (fun n => is_Some (members_lookup Platforms (Py.upper n))) pre ->
  members_lookup Platforms (Py.upper s) = None ->
  run_ args = ([], inl (value_error (s +:+ " is not a valid platform"))).
Proof.
  intros Hfile Hus Hr _ _ Hpre Hs. unfold main.
  rewrite read_usernames_eq, Hfile, bind_ret.
  rewrite bool_decide_eq_false_2 by exact Hus. rewrite bind_ret'.
  unfold select_platforms. rewrite Hr.
  assert (Htruthy : truthy_list (Some (pre ++ s :: post)) = true).
  { destruct pre; reflexivity. }
  rewrite Htruthy. cbn [default from_option id].
  rewrite select_loop_first_unknown by assumption. reflexivity.
Qed.

(** X4. A platform name as the report and the help text show it
    (capitalized, lines 28 and 90) is accepted by [--restrict] and selects
    that platform, when the enumeration names are in upper case. *)
Theorem displayed_name_is_accepted (r : QueryResult) :
  platform r ∈ Platforms ->
  uppercase (name (platform r)) ->
  members_lookup Platforms (Py.upper (fst (entry_text r))) = Some (platform r).
Proof.
  intros Hin Hup. unfold entry_text. cbn [fst].
  rewrite upper_capitalize, Hup. apply members_lookup_name, Hin.
Qed.

(** X5. Line 56 leaves a list of distinct usernames as it is, never yields
    more usernames than it was given, and applying it twice changes nothing
    more. *)
Theorem dict_fromkeys_keeps_distinct (l : list string) :
  (NoDup l -> Py.dict_fromkeys l = l)
  /\ length (Py.dict_fromkeys l) <= length l
  /\ Py.dict_fromkeys (Py.dict_fromkeys l) = Py.dict_fromkeys l.
Proof.
  rewrite !dict_fromkeys_first_occurrences. split; [apply first_occurrences_NoDup_id|].
  split; [apply first_occurrences_length|].
  apply first_occurrences_NoDup_id, first_occurrences_NoDup.
Qed.

End Arguments.

(** ** Observers on the pieces of a trace *)

Lemma prerequests_started_app tr1 tr2 :
  prerequests_started (tr1 ++ tr2) = prerequests_started tr1 ++ prerequests_started tr2.
Proof. apply omap_app. Qed.

Lemma prerequests_started_none tr :
  Forall (fun ev => is_prefetch_event ev = false) tr -> prerequests_started tr = [].
Proof.
  intros H. apply omap_all_None. eapply Forall_impl; [exact H|].
  intros [] Hev; try reflexivity. discriminate.
Qed.

Lemma prerequests_started_map cs : prerequests_started (map prerequest_started cs) = cs.
Proof. apply omap_map_Some. intros [i p]. reflexivity. Qed.

Lemma prerequests_started_settled prerequest cs :
  prerequests_started (map (prerequest_event prerequest) cs) = [].
Proof. apply omap_all_None, Forall_map_all. intros c. reflexivity. Qed.

Lemma prerequests_started_prefetch prerequest pick platforms :
  prerequests_started (prefetch_trace prerequest pick platforms) = numbered platforms.
Proof.
  unfold prefetch_trace.
  change (Stdout CachingTokens :: ?l) with ([Stdout CachingTokens] ++ l).
  rewrite !prerequests_started_app, prerequests_started_map, prerequests_started_settled.
  cbn. apply app_nil_r.
Qed.

Lemma queries_settled_app tr1 tr2 :
  queries_settled (tr1 ++ tr2) = queries_settled tr1 ++ queries_settled tr2.
Proof. apply omap_app. Qed.

Lemma queries_settled_none tr :
  Forall (fun ev => is_query_settled ev = false) tr -> queries_settled tr = [].
Proof.
  intros H. apply omap_all_None. eapply Forall_impl; [exact H|].
  intros [] Hev; try reflexivity. discriminate.
Qed.

Lemma queries_settled_map is_username_available qs :
  queries_settled (map (settle_event is_username_available) qs) = qs.
Proof. apply omap_map_Some. intros [i [p u]]. reflexivity. Qed.

Lemma stderr_reports_app tr1 tr2 :
  stderr_reports (tr1 ++ tr2) = stderr_reports tr1 ++ stderr_reports tr2.
Proof. apply omap_app. Qed.

Lemma stderr_reports_none tr :
  Forall (fun ev => is_stderr ev = false) tr -> stderr_reports tr = [].
Proof.
  intros H. apply omap_all_None. eapply Forall_impl; [exact H|].
  intros [] Hev; try reflexivity. discriminate.
Qed.

(** ** Runs that end normally *)

Section NormalRuns.
Variable Platforms : list Platform.
Variable read_lines : string -> settled (list string).
Variable prerequest : nat -> Platform -> settled unit.
Variable is_username_available : nat -> Platform -> string -> settled QueryResult.
Variable prerequest_pick : nat -> nat.
Variable query_pick : nat -> nat.

Abbreviation run' :=
  (main Platforms read_lines prerequest is_username_available prerequest_pick query_pick).

Lemma normal_run_shape args :
  snd (run' args) = inr tt ->
  exists platforms results,
    accepted Platforms args platforms
    /\ (cache_tokens args = true -> prefetch_succeeds prerequest platforms)
    /\ let us := Py.dict_fromkeys (usernames args) in
       let queries := platform_queries platforms us in
       let done := as_completed query_pick queries in
       Forall (recoverable is_username_available) queries
       /\ fst (run' args)
          = SessionOpened
            :: ((if cache_tokens args
                 then prefetch_trace prerequest prerequest_pick platforms else [])
                ++ map query_started queries
                ++ map (settle_event is_username_available) done
                ++ flat_map (report_user results) us)
            ++ [SessionClosed;
                Stderr (map format_exception (raised_of is_username_available done));
                Stdout (Summary (length queries))]
       /\ (forall u, default [] (results !! u)
                     = filter (fun r => username r = u)
                         (filter (fun r => keeps (available_only args) r = true)
                            (returned_of is_username_available done))).
Proof.
  intros Hend.
  destruct (main_shape Platforms read_lines prerequest is_username_available
              prerequest_pick query_pick args)
    as [[e Hrun]|(platforms & Hfile & Hus & Hsel & _)].
  { rewrite Hrun in Hend. discriminate. }
  destruct (main_cases_valid Platforms read_lines prerequest is_username_available
              prerequest_pick query_pick args platforms Hfile Hus Hsel)
    as [(_ & pre & c & post & e & _ & _ & _ & Hrun)
       |[(_ & pre & q & post & e & _ & _ & _ & _ & Hrun)
        |(Hok & Hall & results & Hrun & Hkey & _)]];
    rewrite Hrun in Hend |- *; cbn [fst snd] in *; try discriminate.
  exists platforms, results. split; [repeat split; assumption|].
  split; [exact Hok|]. cbn zeta. split; [|split; [reflexivity|exact Hkey]].
  rewrite <- (as_completed_perm query_pick). exact Hall.
Qed.

End NormalRuns.

(** ** The session and its phases *)

Section Sessions.
Variable Platforms : list Platform.
Variable read_lines : string -> settled (list string).
Variable prerequest : nat -> Platform -> settled unit.
Variable is_username_available : nat -> Platform -> string -> settled QueryResult.
Variable prerequest_pick : nat -> nat.
Variable query_pick : nat -> nat.

Abbreviation run'' :=
  (main Platforms read_lines prerequest is_username_available prerequest_pick query_pick).

(** X6. A run either ends before anything happens, or opens one session
    and closes it exactly once -- also when the prefetch or a check raises.
    Everything that uses the network and every line of the report lies
    between the two; the recorded failures and the summary are printed after
    the session is closed, and only when the run ends normally. *)
Theorem session_brackets_the_run args :
  (fst (run'' args) = [] /\ exists e, snd (run'' args) = inl e)
  \/ exists body tail,
       fst (run'' args) = SessionOpened :: body ++ SessionClosed :: tail
       /\ Forall (fun ev => is_session_event ev = false) body
       /\ Forall (fun ev => is_report_end ev = false) body
       /\ ((tail = [] /\ exists e, snd (run'' args) = inl e)
           \/ (snd (run'' args) = inr tt
               /\ exists lines n, tail = [Stderr lines; Stdout (Summary n)])).
Proof.
  destruct (main_shape Platforms read_lines prerequest is_username_available
              prerequest_pick query_pick args)
    as [[e Hrun]|(platforms & Hfile & Hus & Hsel & _)].
  { left. rewrite Hrun. split; [reflexivity|]. exists e. reflexivity. }
  right.
  destruct (main_cases_valid Platforms read_lines prerequest is_username_available
              prerequest_pick query_pick args platforms Hfile Hus Hsel)
    as [(_ & pre & c & post & e & _ & _ & _ & Hrun)
       |[(_ & pre & q & post & e & _ & _ & _ & _ & Hrun)
        |(_ & _ & results & Hrun & _)]];
    rewrite Hrun; cbn [fst snd]; eexists; eexists;
    (split; [reflexivity|]); (split; [no_such_event|]); (split; [no_such_event|]).
  - left. split; [reflexivity|]. exists e. reflexivity.
  - left. split; [reflexivity|]. exists e. reflexivity.
  - right. split; [reflexivity|]. eexists. eexists. reflexivity.
Qed.

(** X7. A run that ends normally writes to the error stream exactly once,
    after the report and after closing the session and just before the
    summary: the messages of the checks that raised [ClientError] or
    [KeyError], in the order in which those checks finished -- an empty
    list when none did. *)
Theorem failures_are_reported_once args :
  snd (run'' args) = inr tt ->
  exists platforms front,
    select_platforms Platforms args = ([], inr platforms)
    /\ let queries := platform_queries platforms (Py.dict_fromkeys (usernames args)) in
       let failed := raised_of is_username_available (as_completed query_pick queries) in
       fst (run'' args)
       = front ++ [SessionClosed; Stderr (map format_exception failed);
                   Stdout (Summary (length queries))]
       /\ Forall (fun ev => is_stderr ev = false) front
       /\ stderr_reports (fst (run'' args)) = [map format_exception failed]
       /\ Forall (fun e => caught e = true) failed
       /\ failed ≡ₚ raised_of is_username_available queries.
Proof.
  intros Hend.
  destruct (normal_run_shape Platforms read_lines prerequest is_username_available
              prerequest_pick query_pick args Hend)
    as (platforms & results & (_ & _ & Hsel) & _ & Hall & Htr & _).
  exists platforms. eexists. split; [exact Hsel|]. cbn zeta.
  rewrite Htr.
  change (SessionOpened :: ?l ++ ?t) with ((SessionOpened :: l) ++ t).
  split; [reflexivity|]. split; [no_such_event|]. split.
  - rewrite stderr_reports_app, stderr_reports_none by no_such_event. reflexivity.
  - split.
    + apply Forall_forall. intros e He. unfold raised_of in He.
      apply list_elem_of_omap in He. destruct He as (q & Hq & Hout).
      rewrite (as_completed_perm query_pick) in Hq.
      rewrite Forall_forall in Hall. specialize (Hall q Hq). unfold recoverable in Hall.
      destruct (outcome is_username_available q); [discriminate|].
      inversion Hout; subst. exact Hall.
    + unfold raised_of. rewrite (as_completed_perm query_pick). reflexivity.
Qed.

Lemma prerequests_started_run (b : bool) platforms rest tail :
  Forall (fun ev => is_prefetch_event ev = false) rest ->
  Forall (fun ev => is_prefetch_event ev = false) tail ->
  prerequests_started
    (SessionOpened
     :: ((if b then prefetch_trace prerequest prerequest_pick platforms else [])
         ++ rest) ++ tail)
  = if b then numbered platforms else [].
Proof.
  intros Hrest Htail.
  change (SessionOpened :: ?l ++ tail) with ([SessionOpened] ++ l ++ tail).
  rewrite !prerequests_started_app.
  rewrite (prerequests_started_none rest Hrest), (prerequests_started_none tail Htail).
  rewrite (prerequests_started_none [SessionOpened]) by no_such_event.
  destruct b.
  - rewrite prerequests_started_prefetch. cbn [app]. rewrite !app_nil_r. reflexivity.
  - reflexivity.
Qed.

(** X8. Without [--cache-tokens] a run has no prefetch phase: no
    [util.prerequest] coroutine is started and nothing of lines 60-62 is
    printed. With the flag, a run whose arguments are accepted starts one
    prefetch coroutine for every selected platform, in the order of the
    selection -- for every platform, as [main] does not ask which platforms
    need a token. *)
Theorem prefetch_only_when_asked args :
  (cache_tokens args = false ->
   Forall (fun ev => is_prefetch_event ev = false) (fst (run'' args)))
  /\ (cache_tokens args = true ->
      forall platforms,
        accepted Platforms args platforms ->
        prerequests_started (fst (run'' args)) = numbered platforms
        /\ map snd (prerequests_started (fst (run'' args))) = platforms).
Proof.
  split.
  - intros Hcache.
    destruct (main_shape Platforms read_lines prerequest is_username_available
                prerequest_pick query_pick args)
      as [[e Hrun]|(platforms & Hfile & Hus & Hsel & _)].
    { rewrite Hrun. constructor. }
    destruct (main_cases_valid Platforms read_lines prerequest is_username_available
                prerequest_pick query_pick args platforms Hfile Hus Hsel)
      as [(Hc & _)
         |[(_ & pre & q & post & e & _ & _ & _ & _ & Hrun)
          |(_ & _ & results & Hrun & _)]].
    + congruence.
    + rewrite Hrun, Hcache. cbn [fst]. no_such_event.
    + rewrite Hrun, Hcache. cbn [fst]. no_such_event.
  - intros Hcache platforms (Hfile & Hus & Hsel).
    assert (Hstarted : prerequests_started (fst (run'' args)) = numbered platforms).
    { destruct (main_cases_valid Platforms read_lines prerequest is_username_available
                  prerequest_pick query_pick args platforms Hfile Hus Hsel)
        as [(_ & pre & c & post & e & _ & _ & _ & Hrun)
           |[(_ & pre & q & post & e & _ & _ & _ & _ & Hrun)
            |(_ & _ & results & Hrun & _)]];
        rewrite Hrun; cbn [fst].
      - change (SessionOpened :: (Stdout CachingTokens :: ?a ++ ?b) ++ ?t)
          with ([SessionOpened; Stdout CachingTokens] ++ (a ++ b) ++ t).
        rewrite !prerequests_started_app, prerequests_started_map,
          prerequests_started_settled.
        cbn. rewrite !app_nil_r. reflexivity.
      - rewrite prerequests_started_run by no_such_event. rewrite Hcache. reflexivity.
      - rewrite prerequests_started_run by no_such_event. rewrite Hcache. reflexivity. }
    split; [exact Hstarted|]. rewrite Hstarted. unfold numbered.
    apply snd_zip. rewrite length_seq. reflexivity.
Qed.

Lemma queries_settled_run (b : bool) platforms queries done rest tail :
  Forall (fun ev => is_query_settled ev = false) rest ->
  Forall (fun ev => is_query_settled ev = false) tail ->
  queries_settled
    (SessionOpened
     :: ((if b then prefetch_trace prerequest prerequest_pick platforms else [])
         ++ map query_started queries
         ++ map (settle_event is_username_available) done ++ rest) ++ tail)
  = done.
Proof.
  intros Hrest Htail.
  change (SessionOpened :: ?l ++ tail) with ([SessionOpened] ++ l ++ tail).
  rewrite !queries_settled_app, queries_settled_map.
  rewrite (queries_settled_none rest Hrest), (queries_settled_none tail Htail).
  rewrite (queries_settled_none [SessionOpened]) by no_such_event.
  rewrite (queries_settled_none (if b then _ else _)) by no_such_event.
  rewrite (queries_settled_none (map query_started queries)) by no_such_event.
  cbn. rewrite !app_nil_r. reflexivity.
Qed.

(** X9. The collection loop receives the results of the checks in the
    order in which the checks finish and each at most once: what it has
    received is always a beginning of that order -- all of it when the run
    ends normally. When a run ends with an exception after receiving a
    result, the last check received is the one that raised it, the exception
    is not one line 72 names, and the checks that finish later are never
    awaited. *)
Theorem checks_are_awaited_in_completion_order args :
  let tr := fst (run'' args) in
  (exists rest,
     as_completed query_pick (queries_started tr) = queries_settled tr ++ rest
     /\ (snd (run'' args) = inr tt -> rest = []))
  /\ NoDup (map fst (queries_settled tr))
  /\ (forall e, snd (run'' args) = inl e -> queries_settled tr <> [] ->
        exists q, last (queries_settled tr) = Some q
          /\ outcome is_username_available q = Raised e
          /\ caught e = false).
Proof.
  cbn zeta.
  assert (Hnodup : forall platforms us,
            NoDup (map fst (as_completed query_pick (platform_queries platforms us)))).
  { intros platforms us.
    change (map fst ?x) with (fst <$> x).
    rewrite (as_completed_perm query_pick).
    change (fst <$> ?x) with (map fst x).
    unfold platform_queries. rewrite numbered_indices. apply NoDup_seq. }
  destruct (main_shape Platforms read_lines prerequest is_username_available
              prerequest_pick query_pick args)
    as [[e Hrun]|(platforms & Hfile & Hus & Hsel & _)].
  { rewrite Hrun. cbn. split; [exists []; split; reflexivity|].
    split; [constructor|]. intros e0 _ H. contradiction. }
  destruct (main_cases_valid Platforms read_lines prerequest is_username_available
              prerequest_pick query_pick args platforms Hfile Hus Hsel)
    as [(_ & pre & c & post & e & _ & _ & _ & Hrun)
       |[(_ & pre & q & post & e & Hdone & _ & Hq & He & Hrun)
        |(_ & _ & results & Hrun & _)]];
    rewrite Hrun; cbn [fst snd].
  - rewrite (queries_started_none (SessionOpened :: _)) by no_such_event.
    rewrite (queries_settled_none (SessionOpened :: _)) by no_such_event.
    split; [exists []; split; reflexivity|]. split; [constructor|].
    intros e0 _ H. contradiction.
  - rewrite (queries_started_run prerequest prerequest_pick) by no_such_event.
    rewrite <- (app_nil_r (map (settle_event is_username_available) (pre ++ [q]))).
    rewrite queries_settled_run by no_such_event.
    split; [|split].
    + exists post. rewrite Hdone, <- app_assoc. split; [reflexivity|]. discriminate.
    + specialize (Hnodup platforms (Py.dict_fromkeys (usernames args))).
      rewrite Hdone in Hnodup.
      change (pre ++ q :: post) with (pre ++ [q] ++ post) in Hnodup.
      rewrite app_assoc, map_app in Hnodup.
      apply NoDup_app in Hnodup. apply Hnodup.
    + intros e0 He0 _. inversion He0; subst e0. exists q.
      split; [apply last_snoc|]. split; assumption.
  - rewrite (queries_started_run prerequest prerequest_pick) by no_such_event.
    rewrite queries_settled_run by no_such_event.
    split; [|split].
    + exists []. rewrite app_nil_r. split; reflexivity.
    + apply Hnodup.
    + intros e0 He0. discriminate.
Qed.

End Sessions.

(** ** The report (lines 74-91) *)

Lemma report_user_inv results u ev :
  ev ∈ report_user results u ->
  ev = Stdout Divider
  \/ ev = Stdout (Header (DIVIDER_LENGTH / 2 - Py.len u / 2) u)
  \/ exists r, r ∈ default [] (results !! u) /\ ev = Stdout (print_response r).
Proof.
  unfold report_user. intros Hin. apply elem_of_app in Hin. destruct Hin as [Hin|Hin].
  - repeat (apply elem_of_cons in Hin; destruct Hin as [->|Hin]; [tauto|]).
    apply elem_of_nil in Hin. contradiction.
  - right; right. apply list_elem_of_In, in_map_iff in Hin.
    destruct Hin as (r & <- & Hr). exists r. split; [|reflexivity].
    apply list_elem_of_In in Hr. rewrite sort_responses_perm in Hr. exact Hr.
Qed.

Lemma len_ascii s : Py.isascii s = true -> Py.len s = String.length s.
Proof.
  induction s as [|c s IH]; [reflexivity|]. cbn [Py.isascii Py.len String.length].
  intros H. apply andb_prop in H. destruct H as [Hc Hs]. rewrite (IH Hs).
  unfold Py.is_continuation. apply Nat.ltb_lt in Hc.
  destruct (Nat.leb_spec 128 (nat_of_ascii c)); [lia|reflexivity].
Qed.

(** A username of two accented letters is four bytes and two code points:
    its header is indented by 20 - 2 // 2 columns. *)
Example header_of_accented_username :
  String.length "éé" = 4
  /\ report_user ∅ "éé"
     = [Stdout Divider; Stdout (Header 19 "éé"); Stdout Divider].
Proof. split; reflexivity. Qed.

Lemma report_item_in_run prerequest prerequest_pick is_username_available
    (b : bool) platforms queries done results us lines n ev :
  is_report_item ev = true ->
  ev ∈ SessionOpened
       :: ((if b then prefetch_trace prerequest prerequest_pick platforms else [])
           ++ map query_started queries
           ++ map (settle_event is_username_available) done
           ++ flat_map (report_user results) us)
       ++ [SessionClosed; Stderr lines; Stdout (Summary n)] ->
  exists u, u ∈ us /\ ev ∈ report_user results u.
Proof.
  intros Hev Hin.
  change (SessionOpened :: ?l ++ ?t) with ([SessionOpened] ++ l ++ t) in Hin.
  rewrite !elem_of_app in Hin.
  destruct Hin as [Hin|[[Hin|[Hin|[Hin|Hin]]]|Hin]].
  5: { apply list_elem_of_In, in_flat_map in Hin. destruct Hin as (u & Hu & Hin).
       exists u. split; apply list_elem_of_In; assumption. }
  all: exfalso; revert Hin; apply (not_elem_of_Forall is_report_item); [|exact Hev];
    no_such_event.
Qed.

Lemma platform_queries_elem platforms us q :
  q ∈ platform_queries platforms us ->
  fst (snd q) ∈ platforms /\ snd (snd q) ∈ us.
Proof.
  unfold platform_queries, numbered. destruct q as [i [p u]]. intros Hin.
  apply elem_of_zip_r in Hin. apply list_elem_of_In, in_flat_map in Hin.
  destruct Hin as (u' & Hu' & Hin). apply in_map_iff in Hin.
  destruct Hin as (p' & Heq & Hp'). inversion Heq; subst. cbn [fst snd].
  split; apply list_elem_of_In; assumption.
Qed.

Lemma concat_map_perm {X Y} (g h : X -> list Y) l :
  (forall x, x ∈ l -> g x ≡ₚ h x) -> concat (map g l) ≡ₚ concat (map h l).
Proof.
  induction l as [|x l IH]; intros H; [reflexivity|].
  cbn [map concat]. rewrite (H x) by (apply elem_of_cons; left; reflexivity).
  rewrite IH; [reflexivity|]. intros y Hy. apply H. apply elem_of_cons. right. exact Hy.
Qed.

Lemma concat_filter_by_key (us : list string) : forall l : list QueryResult,
  NoDup us ->
  (forall r, r ∈ l -> username r ∈ us) ->
  concat (map (fun u => filter (fun r => username r = u) l) us) ≡ₚ l.
Proof.
  induction us as [|u us IH]; intros l Hnd Hl.
  - destruct l as [|r l]; [reflexivity|].
    exfalso. apply (elem_of_nil (username r)), Hl. apply elem_of_cons. left. reflexivity.
  - apply NoDup_cons in Hnd. destruct Hnd as [Hu Hnd].
    cbn [map concat].
    transitivity (filter (fun r => username r = u) l
                  ++ filter (fun r => username r <> u) l);
      [|apply filter_app_complement].
    apply Permutation_app; [reflexivity|].
    rewrite <- (IH (filter (fun r => username r <> u) l) Hnd).
    + apply concat_map_perm. intros v Hv.
      rewrite list_filter_filter. apply Permutation_refl'.
      apply list_filter_iff. intros r. split; [|tauto].
      intros Hr. split; [exact Hr|]. intros Heq. apply Hu. congruence.
    + intros r Hr. apply list_elem_of_filter in Hr. destruct Hr as [Hne Hr].
      specialize (Hl r Hr). apply elem_of_cons in Hl. destruct Hl as [Heq|Hin]; tauto.
Qed.

Lemma nat_of_ascii_inj a b : nat_of_ascii a = nat_of_ascii b -> a = b.
Proof.
  intros H. rewrite <- (ascii_nat_embedding a), <- (ascii_nat_embedding b), H.
  reflexivity.
Qed.

Lemma str_ltb_total s t : Py.str_ltb s t = false -> Py.str_ltb t s = false -> s = t.
Proof.
  revert t. induction s as [|a s IH]; intros [|b t]; cbn [Py.str_ltb]; try congruence.
  destruct (Nat.ltb_spec (nat_of_ascii a) (nat_of_ascii b)),
           (Nat.ltb_spec (nat_of_ascii b) (nat_of_ascii a));
    try congruence; try lia.
  intros H1 H2. f_equal; [apply nat_of_ascii_inj; lia|apply IH; assumption].
Qed.

(** Two arrangements of the same responses are presented alike when no two
    of the responses agree on all sort keys. *)
Lemma sort_responses_arrangement l1 l2 :
  l1 ≡ₚ l2 ->
  (forall a b, a ∈ l1 -> b ∈ l1 -> name_key a = name_key b ->
               rank_key a = rank_key b -> a = b) ->
  sort_responses l1 = sort_responses l2.
Proof.
  intros Hperm Hinj.
  apply (StronglySorted_unique_strong (presentation_le id)).
  - intros a b Ha Hb [Hab1 Hab2] [Hba1 Hba2].
    rewrite sort_responses_perm in Ha. rewrite sort_responses_perm, <- Hperm in Hb.
    assert (Hg : group_index a = group_index b) by lia.
    apply Hinj; try assumption.
    + apply str_ltb_total; [apply Hba2; symmetry; exact Hg|apply Hab2; exact Hg].
    + apply (group_index_rank a b), Hg.
  - apply sort_responses_sorted.
  - apply sort_responses_sorted.
  - rewrite !sort_responses_perm. exact Hperm.
Qed.

Section Report.
Variable Platforms : list Platform.
Variable read_lines : string -> settled (list string).
Variable prerequest : nat -> Platform -> settled unit.
Variable is_username_available : nat -> Platform -> string -> settled QueryResult.
Variable prerequest_pick : nat -> nat.
Variable query_pick : nat -> nat.

Abbreviation run_r :=
  (main Platforms read_lines prerequest is_username_available prerequest_pick query_pick).

Lemma report_item_of_run args ev :
  is_report_item ev = true ->
  ev ∈ fst (run_r args) ->
  exists platforms done u r,
    accepted Platforms args platforms
    /\ done ≡ₚ platform_queries platforms (Py.dict_fromkeys (usernames args))
    /\ queries_started (fst (run_r args))
       = platform_queries platforms (Py.dict_fromkeys (usernames args))
    /\ u ∈ Py.dict_fromkeys (usernames args)
    /\ (ev = Stdout (Header (DIVIDER_LENGTH / 2 - Py.len u / 2) u)
        \/ (ev = Stdout (print_response r)
            /\ username r = u
            /\ keeps (available_only args) r = true
            /\ r ∈ returned_of is_username_available done)).
Proof.
  intros Hev Hin.
  destruct (main_shape Platforms read_lines prerequest is_username_available
              prerequest_pick query_pick args)
    as [[e Hrun]|(platforms & Hfile & Hus & Hsel & _)].
  { rewrite Hrun in Hin. apply elem_of_nil in Hin. contradiction. }
  destruct (main_cases_valid Platforms read_lines prerequest is_username_available
              prerequest_pick query_pick args platforms Hfile Hus Hsel)
    as [(_ & pre & c & post & e & _ & _ & _ & Hrun)
       |[(_ & pre & q & post & e & _ & _ & _ & _ & Hrun)
        |(_ & _ & results & Hrun & Hkey & _)]];
    rewrite Hrun in Hin |- *; cbn [fst] in Hin |- *.
  - exfalso. revert Hin. apply (not_elem_of_Forall is_report_item); [|exact Hev].
    no_such_event.
  - exfalso. revert Hin. apply (not_elem_of_Forall is_report_item); [|exact Hev].
    no_such_event.
  - apply report_item_in_run in Hin; [|exact Hev]. destruct Hin as (u & Hu & Hin).
    apply report_user_inv in Hin.
    exists platforms, (as_completed query_pick
                         (platform_queries platforms (Py.dict_fromkeys (usernames args)))), u.
    destruct Hin as [->|[->|(r & Hr & ->)]].
    + discriminate.
    + exists {| username := ""; platform := {| name := "" |}; valid := false;
                success := false; message := "" |}.
      split; [repeat split; assumption|]. split; [apply as_completed_perm|].
      split; [apply queries_started_run; no_such_event|].
      split; [exact Hu|]. left. reflexivity.
    + exists r. split; [repeat split; assumption|]. split; [apply as_completed_perm|].
      split; [apply queries_started_run; no_such_event|].
      split; [exact Hu|]. right. rewrite Hkey in Hr.
      apply list_elem_of_filter in Hr. destruct Hr as [Hname Hr].
      apply list_elem_of_filter in Hr. destruct Hr as [Hkeep Hr].
      repeat split; assumption.
Qed.

(** X10. Every header line of a report is the header of one of the
    deduplicated usernames, indented by 20 - len(username) // 2 columns,
    [len] counting code points. A username of at most 40 code points is
    thereby centred in the 40 columns of the divider, the left margin being
    the right margin or one more; a longer username is not indented. *)
Theorem header_is_centred args n u :
  Stdout (Header n u) ∈ fst (run_r args) ->
  u ∈ Py.dict_fromkeys (usernames args)
  /\ n = DIVIDER_LENGTH / 2 - Py.len u / 2
  /\ (Py.len u <= DIVIDER_LENGTH ->
      n + Py.len u <= DIVIDER_LENGTH
      /\ DIVIDER_LENGTH - (n + Py.len u) <= n
      /\ n <= DIVIDER_LENGTH - (n + Py.len u) + 1)
  /\ (DIVIDER_LENGTH <= Py.len u -> n = 0).
Proof.
  intros Hin.
  destruct (report_item_of_run args (Stdout (Header n u)) eq_refl Hin)
    as (platforms & done & u' & r & _ & _ & _ & Hu' & [Heq|[Heq _]]).
  2: { unfold print_response in Heq.
       destruct (negb (success r)), (valid r); discriminate. }
  assert (Hn : n = DIVIDER_LENGTH / 2 - Py.len u' / 2 /\ u = u')
    by (split; congruence).
  destruct Hn as [Hn <-]. split; [exact Hu'|]. split; [exact Hn|].
  rewrite Hn. unfold DIVIDER_LENGTH.
  pose proof (Nat.div_mod_eq (Py.len u) 2) as Hdiv.
  assert (Hmod : Py.len u mod 2 < 2) by (apply Nat.mod_upper_bound; discriminate).
  change (40 / 2) with 20. split; intros Hlen; lia.
Qed.

(** X11. Every entry of a report shows a response that one of the started
    checks returned, that passed the filter of line 69 and that carries one
    of the queried usernames. Its colours follow lines 82-89: the message
    colour is red exactly for unsuccessful responses (valid or not), and the
    name is green exactly for valid successful ones. With [--available-only]
    no entry is yellow and, since line 91 prints the message only of
    responses that are not valid, no entry shows a message at all. *)
Theorem entries_show_received_responses args name_col message_col r :
  Stdout (Entry name_col message_col r) ∈ fst (run_r args) ->
  (exists q, q ∈ queries_started (fst (run_r args))
     /\ outcome is_username_available q = Returned r)
  /\ keeps (available_only args) r = true
  /\ username r ∈ Py.dict_fromkeys (usernames args)
  /\ (message_col = RED <-> success r = false)
  /\ (name_col = GREEN <-> valid r = true /\ success r = true)
  /\ (snd (entry_text r) = "" <-> valid r = true)
  /\ (available_only args = true ->
      snd (entry_text r) = "" /\ message_col <> YELLOW).
Proof.
  intros Hin.
  destruct (report_item_of_run args (Stdout (Entry name_col message_col r)) eq_refl Hin)
    as (platforms & done & u & r' & _ & Hperm & Hstarted & Hu & [Heq|(Heq & Hname & Hkeep & Hr)]).
  { discriminate. }
  assert (r' = r).
  { unfold print_response in Heq.
    destruct (negb (success r')), (valid r'); inversion Heq; reflexivity. }
  subst r'. split.
  { unfold returned_of in Hr. apply list_elem_of_omap in Hr. destruct Hr as (q & Hq & Hout).
    exists q. rewrite Hstarted, <- Hperm. split; [exact Hq|].
    destruct (outcome is_username_available q); [|discriminate].
    inversion Hout. reflexivity. }
  split; [exact Hkeep|]. split; [rewrite Hname; exact Hu|].
  unfold print_response in Heq. unfold entry_text, keeps in *. cbn [snd].
  destruct (success r), (valid r), (available_only args); cbn in *;
    inversion Heq; subst; repeat split; intros; try discriminate; try reflexivity;
    try tauto;
    match goal with
    | H : _ /\ _ |- _ => destruct H; discriminate
    | H : String _ _ = "" |- _ => discriminate H
    | H : _ = "" |- _ => destruct (message r); discriminate H
    | _ => idtac
    end.
Qed.

Lemma report_of_normal_run args :
  snd (run_r args) = inr tt ->
  exists platforms,
    accepted Platforms args platforms
    /\ (cache_tokens args = true -> prefetch_succeeds prerequest platforms)
    /\ Forall (recoverable is_username_available)
         (platform_queries platforms (Py.dict_fromkeys (usernames args)))
    /\ report_blocks (fst (run_r args))
       = map (fun u =>
                (u, sort_responses
                      (filter (fun r => username r = u)
                         (filter (fun r => keeps (available_only args) r = true)
                            (returned_of is_username_available
                               (as_completed query_pick
                                  (platform_queries platforms
                                     (Py.dict_fromkeys (usernames args)))))))))
           (Py.dict_fromkeys (usernames args)).
Proof.
  intros Hend.
  destruct (normal_run_shape Platforms read_lines prerequest is_username_available
              prerequest_pick query_pick args Hend)
    as (platforms & results & Hacc & Hpre & Hall & Htr & Hkey).
  exists platforms. repeat (split; [assumption|]).
  rewrite Htr, report_blocks_run. apply map_ext. intros u. rewrite Hkey. reflexivity.
Qed.

(** X12. When every response carries the username its check was made for,
    a report that is printed leaves out nothing and repeats nothing: its
    entries, all blocks together, are exactly the returned responses that
    passed the filter of line 69, each once. The output then accounts for
    every check: the entries of the report, the lines written to the error
    stream and the responses dropped by [--available-only] add up to the
    number of the summary line. *)
Theorem report_is_complete args platforms :
  snd (run_r args) = inr tt ->
  select_platforms Platforms args = ([], inr platforms) ->
  answers_its_query is_username_available
    (platform_queries platforms (Py.dict_fromkeys (usernames args))) ->
  let queries := platform_queries platforms (Py.dict_fromkeys (usernames args)) in
  let entries := concat (map snd (report_blocks (fst (run_r args)))) in
  entries
  ≡ₚ filter (fun r => keeps (available_only args) r = true)
       (returned_of is_username_available queries)
  /\ exists lines n,
       stderr_reports (fst (run_r args)) = [lines]
       /\ summaries (fst (run_r args)) = [n]
       /\ length entries + length lines
          + length (filter (fun r => ~ keeps (available_only args) r = true)
                      (returned_of is_username_available queries))
          = n.
Proof.
  intros Hend Hsel Hanswers queries entries.
  destruct (normal_run_shape Platforms read_lines prerequest is_username_available
              prerequest_pick query_pick args Hend)
    as (platforms' & results & (_ & _ & Hsel') & _ & _ & Htr & Hkey).
  rewrite Hsel in Hsel'. inversion Hsel'; subst platforms'. cbn zeta in Htr, Hkey.
  fold queries in Htr, Hkey.
  set (us := Py.dict_fromkeys (usernames args)) in *.
  set (done := as_completed query_pick queries) in *.
  set (kept := filter (fun r => keeps (available_only args) r = true)
                 (returned_of is_username_available done)) in *.
  assert (Hentries : entries
            ≡ₚ filter (fun r => keeps (available_only args) r = true)
                 (returned_of is_username_available queries)).
  { subst entries. rewrite Htr, report_blocks_run, map_map. cbn [snd].
    transitivity kept.
    - rewrite (concat_map_perm _ (fun u => filter (fun r => username r = u) kept)).
      + apply concat_filter_by_key.
        * subst us. rewrite dict_fromkeys_first_occurrences.
          apply first_occurrences_NoDup.
        * intros r Hr. subst kept. apply list_elem_of_filter in Hr.
          destruct Hr as [_ Hr]. unfold returned_of in Hr.
          apply list_elem_of_omap in Hr. destruct Hr as (q & Hq & Hout).
          subst done. rewrite (as_completed_perm query_pick) in Hq.
          rewrite (Hanswers q r Hq).
          -- apply (platform_queries_elem platforms us q Hq).
          -- destruct (outcome is_username_available q); [|discriminate].
             inversion Hout. reflexivity.
      + intros u _. rewrite Hkey. apply sort_responses_perm.
    - subst kept done. unfold returned_of. rewrite (as_completed_perm query_pick).
      reflexivity. }
  split; [exact Hentries|].
  exists (map format_exception (raised_of is_username_available done)), (length queries).
  rewrite Htr.
  change (SessionOpened :: ?l ++ ?t) with ((SessionOpened :: l) ++ t).
  split; [|split].
  - rewrite stderr_reports_app, stderr_reports_none by no_such_event. reflexivity.
  - apply summaries_snoc. no_such_event.
  - rewrite (Permutation_length Hentries), length_map.
    assert (Hraised : length (raised_of is_username_available done)
                      = length (raised_of is_username_available queries)).
    { apply Permutation_length. subst done. unfold raised_of.
      rewrite (as_completed_perm query_pick). reflexivity. }
    rewrite Hraised.
    pose proof (filter_split_length (fun r => keeps (available_only args) r = true)
                  (returned_of is_username_available queries)) as Hsplit.
    pose proof (returned_raised_length is_username_available queries) as Hall.
    lia.
Qed.

(** X13. The report does not depend on the order in which the event loop
    lets the coroutines finish: when no two responses received for one
    username agree on platform name, validity and success (as when every
    platform is selected once), a run that ends normally prints the same
    blocks, in the same order, as the run under any other order of
    completion, which ends normally too. *)
Theorem report_ignores_completion_order args platforms prerequest_pick' query_pick' :
  snd (run_r args) = inr tt ->
  select_platforms Platforms args = ([], inr platforms) ->
  distinguishable
    (returned_of is_username_available
       (platform_queries platforms (Py.dict_fromkeys (usernames args)))) ->
  snd (main Platforms read_lines prerequest is_username_available
         prerequest_pick' query_pick' args) = inr tt
  /\ report_blocks
       (fst (main Platforms read_lines prerequest is_username_available
               prerequest_pick' query_pick' args))
     = report_blocks (fst (run_r args)).
Proof.
  intros Hend Hsel Hdist.
  destruct (report_of_normal_run args Hend)
    as (platforms' & (Hfile & Hus & Hsel') & Hpre & Hall & Hblocks).
  rewrite Hsel in Hsel'. inversion Hsel'; subst platforms'.
  assert (Hend' : snd (main Platforms read_lines prerequest is_username_available
                         prerequest_pick' query_pick' args) = inr tt).
  { apply (run_ends_normally Platforms read_lines prerequest is_username_available
             prerequest_pick' query_pick' args platforms); assumption. }
  split; [exact Hend'|].
  destruct (normal_run_shape Platforms read_lines prerequest is_username_available
              prerequest_pick' query_pick' args Hend')
    as (platforms' & results' & (_ & _ & Hsel'') & _ & _ & Htr' & Hkey').
  rewrite Hsel in Hsel''. inversion Hsel''; subst platforms'.
  rewrite Htr', report_blocks_run, Hblocks.
  apply map_ext. intros u. f_equal. rewrite Hkey'.
  set (queries := platform_queries platforms (Py.dict_fromkeys (usernames args))) in *.
  apply sort_responses_arrangement.
  - unfold returned_of.
    rewrite (as_completed_perm query_pick'), (as_completed_perm query_pick). reflexivity.
  - intros a b Ha Hb Hname Hrank.
    apply list_elem_of_filter in Ha. destruct Ha as [Hua Ha].
    apply list_elem_of_filter in Ha. destruct Ha as [_ Ha].
    apply list_elem_of_filter in Hb. destruct Hb as [Hub Hb].
    apply list_elem_of_filter in Hb. destruct Hb as [_ Hb].
    unfold returned_of in Ha, Hb.
    rewrite (as_completed_perm query_pick') in Ha, Hb.
    apply Hdist; try assumption. congruence.
Qed.

(** X14. A report is printed whole or not at all: in a run that ends with
    an exception nothing of lines 76-93 appears -- no divider, header or
    entry, even for usernames whose checks had all finished, no failure
    list and no summary. The only thing such a run may have printed is the
    notice of the token prefetch. *)
Theorem no_partial_report args e :
  snd (run_r args) = inl e ->
  Forall (fun ev => is_stdout ev = true ->
                    ev = Stdout CachingTokens \/ ev = Stdout ClearLine)
    (fst (run_r args))
  /\ Forall (fun ev => is_stderr ev = false) (fst (run_r args))
  /\ report_blocks (fst (run_r args)) = [].
Proof.
  intros Hend.
  assert (Hitems : Forall (fun ev => is_report_item ev = false) (fst (run_r args))
                   /\ Forall (fun ev => is_report_end ev = false) (fst (run_r args))
                   /\ Forall (fun ev => ev <> Stdout Divider) (fst (run_r args))).
  { destruct (main_shape Platforms read_lines prerequest is_username_available
                prerequest_pick query_pick args)
      as [[e' Hrun]|(platforms & Hfile & Hus & Hsel & _)].
    { rewrite Hrun. repeat split; constructor. }
    destruct (main_cases_valid Platforms read_lines prerequest is_username_available
                prerequest_pick query_pick args platforms Hfile Hus Hsel)
      as [(_ & pre & c & post & e' & _ & _ & _ & Hrun)
         |[(_ & pre & q & post & e' & _ & _ & _ & _ & Hrun)
          |(_ & _ & results & Hrun & _)]];
      rewrite Hrun in Hend |- *; cbn [fst snd] in *; try discriminate.
    - repeat split; try no_such_event.
      repeat first [ apply Forall_cons_2; [discriminate|]
                   | apply Forall_app_2
                   | apply Forall_map_all; intros ?; discriminate
                   | apply Forall_nil_2 ].
    - repeat split; try no_such_event.
      repeat first [ apply Forall_cons_2; [discriminate|]
                   | apply Forall_app_2
                   | apply Forall_map_all; intros ?; discriminate
                   | apply Forall_nil_2
                   | match goal with |- Forall _ (if ?b then _ else _) => destruct b end
                   | progress unfold prefetch_trace ]. }
  destruct Hitems as (Hitems & Hends & Hdiv). split; [|split].
  - rewrite Forall_forall in *. intros ev Hin Hout.
    specialize (Hitems ev Hin). specialize (Hends ev Hin). specialize (Hdiv ev Hin).
    destruct ev as [| | | | | |[]|]; try discriminate; tauto.
  - eapply Forall_impl; [exact Hends|]. intros [] Hev; try reflexivity. discriminate.
  - unfold report_blocks. rewrite <- (app_nil_r (fst (run_r args))).
    rewrite parse_report_skip by exact Hitems. reflexivity.
Qed.

End Report.

(** ** The fan-out of a run (lines 63-73, 92-93) *)

Lemma snd_numbered {X} (l : list X) : map snd (numbered l) = l.
Proof.
  unfold numbered. change (map snd ?x) with (x.*2).
  apply snd_zip. rewrite length_seq. lia.
Qed.

Lemma pairs_elem (platforms : list Platform) (us : list string) p u :
  (p, u) ∈ flat_map (fun u => map (fun p => (p, u)) platforms) us
  <-> p ∈ platforms /\ u ∈ us.
Proof.
  rewrite list_elem_of_In, in_flat_map. split.
  - intros (u' & Hu' & Hin). apply in_map_iff in Hin.
    destruct Hin as (p' & Heq & Hp'). inversion Heq; subst.
    split; apply list_elem_of_In; assumption.
  - intros [Hp Hu]. exists u. split; [apply list_elem_of_In; exact Hu|].
    apply in_map_iff. exists p. split; [reflexivity|].
    apply list_elem_of_In. exact Hp.
Qed.

Lemma pairs_NoDup (platforms : list Platform) (us : list string) :
  NoDup platforms -> NoDup us ->
  NoDup (flat_map (fun u => map (fun p => (p, u)) platforms) us).
Proof.
  intros Hps Hus. induction Hus as [|u us Hu Hus IH]; [constructor|].
  cbn [flat_map]. apply NoDup_app. split; [|split; [|exact IH]].
  - change (map ?f ?l) with (f <$> l). apply NoDup_fmap_2; [|exact Hps].
    intros p p' Heq. congruence.
  - intros [p u'] Hin Hin'. apply list_elem_of_In, in_map_iff in Hin.
    destruct Hin as (p' & Heq & _). inversion Heq; subst.
    apply pairs_elem in Hin'. destruct Hin' as [_ Hin']. contradiction.
Qed.

Lemma returned_of_elem is_username_available qs q r :
  q ∈ qs -> outcome is_username_available q = Returned r ->
  r ∈ returned_of is_username_available qs.
Proof.
  intros Hq Hr. unfold returned_of. apply list_elem_of_omap.
  exists q. rewrite Hr. split; [exact Hq|reflexivity].
Qed.

Lemma raised_of_elem is_username_available qs q e :
  q ∈ qs -> outcome is_username_available q = Raised e ->
  e ∈ raised_of is_username_available qs.
Proof.
  intros Hq He. unfold raised_of. apply list_elem_of_omap.
  exists q. rewrite He. split; [exact Hq|reflexivity].
Qed.

Section FanOutRun.
Variable Platforms : list Platform.
Variable read_lines : string -> settled (list string).
Variable prerequest : nat -> Platform -> settled unit.
Variable is_username_available : nat -> Platform -> string -> settled QueryResult.
Variable prerequest_pick : nat -> nat.
Variable query_pick : nat -> nat.

Abbreviation run_f :=
  (main Platforms read_lines prerequest is_username_available prerequest_pick query_pick).

(** C1. In a run that reaches the fan-out and whose token prefetch, if
    asked for, succeeds, line 63 makes one task per pair of a deduplicated
    username and a selected platform, username by username: a pair is a
    task exactly when its platform is selected and its username was given,
    the tasks are numbered 0, 1, ... in that order, and distinct platforms
    give distinct pairs. When every such check returns a response or raises
    one of the two exceptions line 72 names, the run ends normally and its
    trace shows every task started once and settled once, in the order of
    completion, then the report and, on the error stream, the recorded
    messages. Every task has exactly one outcome: a response, retained
    exactly when it passes the filter of line 69, or an exception whose
    message is recorded; the retained responses are the returned ones that
    pass the filter, the recorded messages those of the tasks that raised,
    and retained, filtered and recorded outcomes together number
    |usernames| * |platforms|. *)
Theorem fan_out_outcomes args platforms :
  truthy_str (input_file args) = false ->
  usernames args <> [] ->
  select_platforms Platforms args = ([], inr platforms) ->
  (cache_tokens args = true -> prefetch_succeeds prerequest platforms) ->
  let us := Py.dict_fromkeys (usernames args) in
  let queries := platform_queries platforms us in
  Forall (recoverable is_username_available) queries ->
  map snd queries = flat_map (fun u => map (fun p => (p, u)) platforms) us
  /\ map fst queries = seq 0 (length us * length platforms)
  /\ (forall p u, (p, u) ∈ map snd queries <-> p ∈ platforms /\ u ∈ usernames args)
  /\ (NoDup platforms -> NoDup (map snd queries))
  /\ exists done results exceptions,
       done ≡ₚ queries
       /\ run_f args
          = (SessionOpened
             :: ((if cache_tokens args
                  then prefetch_trace prerequest prerequest_pick platforms else [])
                 ++ map query_started queries
                 ++ map (settle_event is_username_available) done
                 ++ flat_map (report_user results) us)
             ++ [SessionClosed; Stderr exceptions;
                 Stdout (Summary (length us * length platforms))],
             inr tt)
       /\ queries_started (fst (run_f args)) = queries
       /\ queries_settled (fst (run_f args)) = done
       /\ (forall q, q ∈ queries ->
             (exists r, outcome is_username_available q = Returned r
                /\ (keeps (available_only args) r = true <-> r ∈ retained results))
             \/ (exists e, outcome is_username_available q = Raised e
                   /\ caught e = true /\ format_exception e ∈ exceptions))
       /\ (forall u, default [] (results !! u)
                     = filter (fun r => username r = u)
                         (filter (fun r => keeps (available_only args) r = true)
                            (returned_of is_username_available done)))
       /\ retained results
          ≡ₚ filter (fun r => keeps (available_only args) r = true)
               (returned_of is_username_available queries)
       /\ exceptions ≡ₚ map format_exception (raised_of is_username_available queries)
       /\ length (retained results)
          + length (filter (fun r => ~ keeps (available_only args) r = true)
                      (returned_of is_username_available queries))
          + length exceptions
          = length us * length platforms.
Proof.
  intros Hfile Hus Hsel Hpre us queries Hall.
  assert (Hpairs : map snd queries
                   = flat_map (fun u => map (fun p => (p, u)) platforms) us).
  { unfold queries, platform_queries. apply snd_numbered. }
  pose proof (length_platform_queries platforms us) as Hlen. fold queries in Hlen.
  pose proof (as_completed_perm query_pick queries) as Hperm.
  split; [exact Hpairs|]. split.
  { unfold queries, platform_queries. rewrite numbered_indices.
    f_equal. rewrite <- Hlen. unfold queries, platform_queries.
    symmetry. apply length_numbered. }
  split.
  { intros p u. rewrite Hpairs, pairs_elem. unfold us.
    rewrite dict_fromkeys_first_occurrences, first_occurrences_elem. reflexivity. }
  split.
  { intros Hnodup. rewrite Hpairs. apply pairs_NoDup; [exact Hnodup|].
    unfold us. rewrite dict_fromkeys_first_occurrences. apply first_occurrences_NoDup. }
  destruct (main_cases_valid Platforms read_lines prerequest is_username_available
              prerequest_pick query_pick args platforms Hfile Hus Hsel)
    as [(Hc & pre & c & post & e' & H1 & _ & H3 & _)
       |[(_ & pre & q' & post & e' & H1 & _ & H3 & H4 & _)
        |(_ & _ & results & Hrun & Hkey & Hret)]].
  { exfalso. eapply prefetch_failure_excluded; eauto. }
  { exfalso.
    apply (unrecoverable_not_all is_username_available q' e' queries);
      [|exact H3|exact H4|exact Hall].
    rewrite <- Hperm. fold us in H1. fold queries in H1. rewrite H1.
    apply elem_of_app. right. apply elem_of_cons. left. reflexivity. }
  fold us in Hrun, Hkey, Hret. fold queries in Hrun, Hkey, Hret.
  set (done := as_completed query_pick queries) in *.
  exists done, results, (map format_exception (raised_of is_username_available done)).
  assert (Hretained : retained results
            ≡ₚ filter (fun r => keeps (available_only args) r = true)
                 (returned_of is_username_available queries)).
  { rewrite Hret. unfold returned_of. rewrite Hperm. reflexivity. }
  assert (Hraised : map format_exception (raised_of is_username_available done)
            ≡ₚ map format_exception (raised_of is_username_available queries)).
  { unfold raised_of. rewrite Hperm. reflexivity. }
  split; [exact Hperm|]. rewrite Hrun, Hlen. cbn [fst snd].
  split; [reflexivity|]. split.
  { apply (queries_started_run prerequest prerequest_pick); no_such_event. }
  split.
  { apply (queries_settled_run prerequest is_username_available prerequest_pick);
      no_such_event. }
  split.
  { intros q Hq. rewrite Forall_forall in Hall. specialize (Hall q Hq).
    unfold recoverable in Hall.
    destruct (outcome is_username_available q) as [r|e] eqn:Hout.
    - left. exists r. split; [reflexivity|]. rewrite Hretained, list_elem_of_filter.
      split; [|tauto]. intros Hkeep. split; [exact Hkeep|].
      apply (returned_of_elem is_username_available queries q r Hq Hout).
    - right. exists e. split; [reflexivity|]. split; [exact Hall|].
      rewrite Hraised. apply list_elem_of_In, in_map, list_elem_of_In.
      apply (raised_of_elem is_username_available queries q e Hq Hout). }
  split; [exact Hkey|]. split; [exact Hretained|]. split; [exact Hraised|].
  rewrite (Permutation_length Hretained), (Permutation_length Hraised), length_map.
  rewrite filter_split_length, returned_raised_length. exact Hlen.
Qed.

End FanOutRun.

Lemma fan_out_outcomes_witness :
  Forall (recoverable Sample.is_username_available)
    (platform_queries [Sample.GITHUB; Sample.TUMBLR; Sample.SNAPCHAT] ["alice"; "bob"])
  /\ queries_started (fst (Sample.run Sample.args))
     = platform_queries [Sample.GITHUB; Sample.TUMBLR; Sample.SNAPCHAT] ["alice"; "bob"]
  /\ exists (results : gmap string (list QueryResult)) (exceptions : list string),
       length (retained results)
       + length (filter (fun r => ~ keeps false r = true)
                   (returned_of Sample.is_username_available
                      (platform_queries [Sample.GITHUB; Sample.TUMBLR; Sample.SNAPCHAT]
                         ["alice"; "bob"])))
       + length exceptions
       = 2 * 3.
Proof.
  assert (H : Forall (recoverable Sample.is_username_available)
                (platform_queries [Sample.GITHUB; Sample.TUMBLR; Sample.SNAPCHAT]
                   ["alice"; "bob"])).
  { vm_compute. repeat constructor. }
  split; [exact H|].
  destruct (fan_out_outcomes Sample.Platforms Sample.no_files Sample.prerequest_ok
              Sample.is_username_available Sample.in_order Sample.interleaved
              Sample.args [Sample.GITHUB; Sample.TUMBLR; Sample.SNAPCHAT])
    as (_ & _ & _ & _ & done & results & exceptions
        & _ & _ & Hstarted & _ & _ & _ & _ & _ & Hcount).
  - reflexivity.
  - discriminate.
  - reflexivity.
  - intros _. vm_compute. repeat constructor.
  - exact H.
  - split; [exact Hstarted|]. exists results, exceptions. exact Hcount.
Defined.

(** ** The further properties at work on the sample runs *)

Lemma sample_answers_its_query queries :
  answers_its_query Sample.is_username_available queries.
Proof.
  intros [i [p u]] r _. unfold outcome, Sample.is_username_available. cbn [fst snd].
  destruct (String.eqb (name p) "TUMBLR"); [discriminate|].
  destruct (String.eqb (name p) "GITHUB"); intros H; inversion H; reflexivity.
Defined.

Lemma sample_responses_distinguishable :
  distinguishable
    (returned_of Sample.is_username_available
       (platform_queries [Sample.GITHUB; Sample.TUMBLR; Sample.SNAPCHAT]
          (Py.dict_fromkeys (usernames Sample.args)))).
Proof.
  intros a b Ha Hb Hu Hn Hr.
  apply list_elem_of_In in Ha, Hb. vm_compute in Ha, Hb.
  repeat (destruct Ha as [<-|Ha]); try contradiction;
    repeat (destruct Hb as [<-|Hb]); try contradiction;
    first [reflexivity | discriminate Hu | discriminate Hn | discriminate Hr].
Defined.

Lemma no_username_is_refused_first_witness :
  usernames ExtraSample.args_no_usernames = []
  /\ Sample.run ExtraSample.args_no_usernames
     = ([], inl (value_error "you must specify either a username or an input file")).
Proof.
  split; [reflexivity|].
  apply (no_username_is_refused_first Sample.Platforms Sample.no_files Sample.prerequest_ok
           Sample.is_username_available Sample.in_order Sample.interleaved
           ExtraSample.args_no_usernames); reflexivity.
Defined.

Lemma restrict_selects_in_order_witness :
  select_platforms Sample.Platforms ExtraSample.args_repeated_platform
  = ([], inr [Sample.GITHUB; Sample.GITHUB])
  /\ length (platform_queries [Sample.GITHUB; Sample.GITHUB] ["alice"]) = 1 * 2.
Proof.
  assert (H : select_platforms Sample.Platforms ExtraSample.args_repeated_platform
              = ([], inr [Sample.GITHUB; Sample.GITHUB])) by reflexivity.
  split; [exact H|].
  destruct (restrict_selects_in_order Sample.Platforms ExtraSample.args_repeated_platform)
    as [_ Hsome].
  destruct (Hsome ["github"; "GitHub"] [Sample.GITHUB; Sample.GITHUB])
    as (_ & _ & _ & Hcount).
  - reflexivity.
  - discriminate.
  - repeat constructor.
  - exact H.
  - apply (Hcount ["alice"]).
Defined.

Lemma first_unknown_platform_is_reported_witness :
  Sample.run Sample.args_unknown_platform
  = ([], inl (value_error "myspace is not a valid platform")).
Proof.
  apply (first_unknown_platform_is_reported Sample.Platforms Sample.no_files
           Sample.prerequest_ok Sample.is_username_available Sample.in_order
           Sample.interleaved Sample.args_unknown_platform ["github"] "myspace" []).
  - reflexivity.
  - discriminate.
  - reflexivity.
  - repeat constructor.
  - reflexivity.
  - constructor; [|constructor]. exists Sample.GITHUB. reflexivity.
  - reflexivity.
Defined.

Lemma displayed_name_is_accepted_witness :
  fst (entry_text SortSample.taken) = "Github"
  /\ members_lookup Sample.Platforms (Py.upper "Github") = Some Sample.GITHUB.
Proof.
  split; [reflexivity|].
  apply (displayed_name_is_accepted Sample.Platforms SortSample.taken).
  - apply elem_of_cons. right. apply elem_of_cons. left. reflexivity.
  - reflexivity.
Defined.

Lemma dict_fromkeys_keeps_distinct_witness :
  Py.dict_fromkeys ["bob"; "alice"] = ["bob"; "alice"].
Proof.
  destruct (dict_fromkeys_keeps_distinct ["bob"; "alice"]) as [Hid _].
  apply Hid. apply (bool_decide_unpack (NoDup ["bob"; "alice"])). vm_compute. exact I.
Defined.

Lemma failures_are_reported_once_witness :
  snd (Sample.run Sample.args) = inr tt
  /\ exists lines, stderr_reports (fst (Sample.run Sample.args)) = [lines]
       /\ length lines = 2.
Proof.
  assert (H : snd (Sample.run Sample.args) = inr tt) by (vm_compute; reflexivity).
  split; [exact H|].
  destruct (failures_are_reported_once Sample.Platforms Sample.no_files Sample.prerequest_ok
              Sample.is_username_available Sample.in_order Sample.interleaved
              Sample.args H)
    as (platforms & front & Hsel & _ & _ & Hreports & _).
  assert (Hp : platforms = [Sample.GITHUB; Sample.TUMBLR; Sample.SNAPCHAT]).
  { vm_compute in Hsel. inversion Hsel. reflexivity. }
  subst platforms. eexists. split; [exact Hreports|]. vm_compute. reflexivity.
Defined.

Lemma prefetch_only_when_asked_witness :
  Forall (fun ev => is_prefetch_event ev = false) (fst (Sample.run ExtraSample.args_plain))
  /\ map snd (prerequests_started (fst (Sample.run Sample.args)))
     = [Sample.GITHUB; Sample.TUMBLR; Sample.SNAPCHAT].
Proof.
  split.
  - apply (prefetch_only_when_asked Sample.Platforms Sample.no_files Sample.prerequest_ok
             Sample.is_username_available Sample.in_order Sample.interleaved
             ExtraSample.args_plain). reflexivity.
  - apply (prefetch_only_when_asked Sample.Platforms Sample.no_files Sample.prerequest_ok
             Sample.is_username_available Sample.in_order Sample.interleaved
             Sample.args); [reflexivity|].
    split; [reflexivity|split; [discriminate|reflexivity]].
Defined.

Lemma checks_are_awaited_in_completion_order_witness :
  snd (Sample.run_slow Sample.args) = inl Sample.timed_out
  /\ exists q, last (queries_settled (fst (Sample.run_slow Sample.args))) = Some q
       /\ outcome Sample.is_username_available_slow q = Raised Sample.timed_out.
Proof.
  assert (H : snd (Sample.run_slow Sample.args) = inl Sample.timed_out)
    by (vm_compute; reflexivity).
  split; [exact H|].
  destruct (checks_are_awaited_in_completion_order Sample.Platforms Sample.no_files
              Sample.prerequest_ok Sample.is_username_available_slow Sample.in_order
              Sample.interleaved Sample.args) as (_ & _ & Hlast).
  destruct (Hlast Sample.timed_out H) as (q & Hq & Hout & _).
  - vm_compute. discriminate.
  - exists q. split; assumption.
Defined.

Lemma header_is_centred_witness :
  Stdout (Header 18 "alice") ∈ fst (Sample.run Sample.args)
  /\ 18 + Py.len "alice" <= DIVIDER_LENGTH.
Proof.
  assert (H : Stdout (Header 18 "alice") ∈ fst (Sample.run Sample.args)).
  { apply list_elem_of_In. vm_compute. tauto. }
  split; [exact H|].
  destruct (header_is_centred Sample.Platforms Sample.no_files Sample.prerequest_ok
              Sample.is_username_available Sample.in_order Sample.interleaved
              Sample.args 18 "alice" H) as (_ & _ & Hfit & _).
  apply Hfit. vm_compute. lia.
Defined.

Lemma entries_show_received_responses_witness :
  Stdout (Entry WHITE YELLOW SortSample.taken) ∈ fst (Sample.run Sample.args)
  /\ keeps (available_only Sample.args) SortSample.taken = true.
Proof.
  assert (H : Stdout (Entry WHITE YELLOW SortSample.taken) ∈ fst (Sample.run Sample.args)).
  { apply list_elem_of_In. vm_compute. tauto. }
  split; [exact H|].
  destruct (entries_show_received_responses Sample.Platforms Sample.no_files
              Sample.prerequest_ok Sample.is_username_available Sample.in_order
              Sample.interleaved Sample.args WHITE YELLOW SortSample.taken H)
    as (_ & Hkeep & _).
  exact Hkeep.
Defined.

Lemma report_is_complete_witness :
  snd (Sample.run Sample.args) = inr tt
  /\ length (concat (map snd (report_blocks (fst (Sample.run Sample.args))))) = 4.
Proof.
  assert (H : snd (Sample.run Sample.args) = inr tt) by (vm_compute; reflexivity).
  split; [exact H|].
  destruct (report_is_complete Sample.Platforms Sample.no_files Sample.prerequest_ok
              Sample.is_username_available Sample.in_order Sample.interleaved
              Sample.args [Sample.GITHUB; Sample.TUMBLR; Sample.SNAPCHAT] H eq_refl
              (sample_answers_its_query _)) as [Hperm _].
  etransitivity; [exact (Permutation_length Hperm)|]. vm_compute. reflexivity.
Defined.

Lemma report_ignores_completion_order_witness :
  snd (Sample.run Sample.args) = inr tt
  /\ report_blocks
       (fst (main Sample.Platforms Sample.no_files Sample.prerequest_ok
               Sample.is_username_available Sample.interleaved ExtraSample.reversed
               Sample.args))
     = report_blocks (fst (Sample.run Sample.args)).
Proof.
  assert (H : snd (Sample.run Sample.args) = inr tt) by (vm_compute; reflexivity).
  split; [exact H|].
  apply (report_ignores_completion_order Sample.Platforms Sample.no_files
           Sample.prerequest_ok Sample.is_username_available Sample.in_order
           Sample.interleaved Sample.args
           [Sample.GITHUB; Sample.TUMBLR; Sample.SNAPCHAT]
           Sample.interleaved ExtraSample.reversed H eq_refl
           sample_responses_distinguishable).
Defined.

Lemma no_partial_report_witness :
  snd (Sample.run_slow Sample.args) = inl Sample.timed_out
  /\ report_blocks (fst (Sample.run_slow Sample.args)) = [].
Proof.
  assert (H : snd (Sample.run_slow Sample.args) = inl Sample.timed_out)
    by (vm_compute; reflexivity).
  split; [exact H|].
  destruct (no_partial_report Sample.Platforms Sample.no_files Sample.prerequest_ok
              Sample.is_username_available_slow Sample.in_order Sample.interleaved
              Sample.args Sample.timed_out H) as (_ & _ & Hblocks).
  exact Hblocks.
Defined.
